(** * The step builder of package [pipeline] (stepBuilder.go)

    A shallow embedding of [StepBuilder.Build] and of the helpers that live
    next to it, followed by the properties the design document states for
    the pipeline compilation core.

    Conventions.  Go strings are byte strings and are modelled by
    [string]; Go maps with string keys are [gmap string string]; a Go
    [int] is a [Z] kept in the signed 64-bit range by [wrap_int]; a
    function that returns [(T, error)] returns [error + T]. *)

From Stdlib Require Import Ascii String ZArith Lia.
From stdpp Require Import gmap strings list fin_maps pretty sorting.
From Equations Require Import Equations.
From Equations.Prop Require Import Logic.

Local Open Scope string_scope.
Local Open Scope list_scope.

(** ** Byte strings: [filepath.Base], [strings.TrimSuffix], [strings.TrimPrefix] *)

Module Path.

Definition IsPathSeparator (c : ascii) : bool := Ascii.eqb c "/".

Fixpoint dropWhile (p : ascii → bool) (l : list ascii) : list ascii :=
  match l with
  | [] => []
  | c :: r => if p c then dropWhile p r else l
  end.

Fixpoint takeWhile (p : ascii → bool) (l : list ascii) : list ascii :=
  match l with
  | [] => []
  | c :: r => if p c then c :: takeWhile p r else []
  end.

(** [for len(path) > 0 && os.IsPathSeparator(path[len(path)-1]) { path = path[0 : len(path)-1] }] *)
Definition stripTrailingSlashes (path : list ascii) : list ascii :=
  reverse (dropWhile IsPathSeparator (reverse path)).

(** [i := len(path) - 1; for i >= 0 && !os.IsPathSeparator(path[i]) { i-- };
    if i >= 0 { path = path[i+1:] }] *)
Definition lastElement (path : list ascii) : list ascii :=
  reverse (takeWhile (λ c, negb (IsPathSeparator c)) (reverse path)).

(** [filepath.Base] on a system whose separator is the slash and whose
    paths carry no volume name. *)
Definition Base (path : list ascii) : list ascii :=
  match path with
  | [] => ["."%char]
  | _ =>
      match lastElement (stripTrailingSlashes path) with
      | [] => ["/"%char]
      | p => p
      end
  end.

(** [len(s) >= len(suffix) && s[len(s)-len(suffix):] == suffix] *)
Definition HasSuffix (s suffix : list ascii) : bool :=
  (length suffix <=? length s)%nat
  && bool_decide (drop (length s - length suffix) s = suffix).

(** [len(s) >= len(prefix) && s[:len(prefix)] == prefix] *)
Definition HasPrefix (s prefix : list ascii) : bool :=
  (length prefix <=? length s)%nat
  && bool_decide (take (length prefix) s = prefix).

Definition TrimSuffix (s suffix : list ascii) : list ascii :=
  if HasSuffix s suffix then take (length s - length suffix) s else s.

Definition TrimPrefix (s prefix : list ascii) : list ascii :=
  if HasPrefix s prefix then drop (length prefix) s else s.

End Path.

Definition dot_yml : list ascii := list_ascii_of_string ".yml".
Definition dot_yaml : list ascii := list_ascii_of_string ".yaml".
Definition dot : list ascii := list_ascii_of_string ".".

(** The body of [SanitizePath] on the bytes of the path. *)
Definition sanitizeBytes (path : list ascii) : list ascii :=
  let path := Path.Base path in
  let path := Path.TrimSuffix path dot_yml in
  let path := Path.TrimSuffix path dot_yaml in
  let path := Path.TrimPrefix path dot in
  path.

Definition SanitizePath (path : string) : string :=
  string_of_list_ascii (sanitizeBytes (list_ascii_of_string path)).

(** [strings.ToLower] on the bytes of an ASCII string (the identifiers it
    is applied to here are ASCII). *)
Definition lowerByte (c : ascii) : ascii :=
  let n := nat_of_ascii c in
  if (65 <=? n)%nat && (n <=? 90)%nat then ascii_of_nat (n + 32) else c.

Definition ToLower (s : string) : string :=
  string_of_list_ascii (lowerByte <$> list_ascii_of_string s).

(** ** Machine integers *)

(** Go's [int] on a 64-bit platform: arithmetic wraps into
    [-2^63, 2^63). *)
Definition int_min : Z := - 2 ^ 63.
Definition int_max : Z := 2 ^ 63 - 1.

Definition wrap_int (z : Z) : Z := (z + 2 ^ 63) mod 2 ^ 64 - 2 ^ 63.

(** [n++] *)
Definition incr (n : Z) : Z := wrap_int (n + 1).

(** ** Errors *)

(** The error values [Build] can return.  Errors made by the packages
    the builder calls are known here by their message only. *)
Inductive error : Type :=
| Upstream (err : string)
    (** [return nil, err]: the callee's error, handed on unchanged *)
| PipelineParseError (Err : string)
    (** [&yaml.PipelineParseError{Err: err}] *)
| Errorf (msg : string).
    (** [fmt.Errorf(msg)] *)

(** The Go type behind an error value. *)
Inductive errorKind := KindUpstream | KindPipelineParseError | KindErrorf.

Definition kindOf (e : error) : errorKind :=
  match e with
  | Upstream _ => KindUpstream
  | PipelineParseError _ => KindPipelineParseError
  | Errorf _ => KindErrorf
  end.

(** ** Data model: the structs of the packages around the builder,
       with the fields the builder reads or writes *)

Module model.

(** Modelled from the spec: the constants of [type StatusValue string],
    which are declared outside this file; the states are those the design
    calls pending and skipped. *)
Definition StatusValue := string.
Definition StatusPending : StatusValue := "pending".
Definition StatusSkipped : StatusValue := "skipped".

Definition WebhookEvent := string.

Module Repo.
Record t := {
  Link : string;
  IsTrusted : bool;
  IsSCMPrivate : bool;
  NetrcOnlyTrusted : bool }.
End Repo.
Abbreviation Repo := Repo.t.

Module Pipeline.
Record t := { ID : Z; Event : WebhookEvent }.
End Pipeline.
Abbreviation Pipeline := Pipeline.t.

Module Netrc.
Record t := { Machine : string; Login : string; Password : string }.
End Netrc.
Abbreviation Netrc := Netrc.t.

Module Secret.
Record t := {
  Name : string;
  Value : string;
  Images : list string;
  PluginsOnly : bool;
  Events : list WebhookEvent }.
End Secret.
Abbreviation Secret := Secret.t.

Module Registry.
Record t := {
  Address : string;
  Username : string;
  Password : string;
  Email : string }.
End Registry.
Abbreviation Registry := Registry.t.

Module Workflow.
Record t := {
  ID : Z;
  PipelineID : Z;
  PID : Z;
  Name : string;
  State : StatusValue;
  Environ : gmap string string }.

(** [w.State = s] *)
Definition withState (s : StatusValue) (w : t) : t :=
  {| ID := ID w; PipelineID := PipelineID w; PID := PID w;
     Name := Name w; State := s; Environ := Environ w |}.
End Workflow.
Abbreviation Workflow := Workflow.t.

End model.

Module forge_types.
Module FileMeta.
Record t := { Name : string; Data : string }.
End FileMeta.
Abbreviation FileMeta := FileMeta.t.
End forge_types.

Module matrix.
(** [type Axis map[string]string] *)
Abbreviation Axis := (gmap string string).
End matrix.

Module metadata.

(** Modelled from the spec: [metadata.ServerForge], the identity of the
    forge. *)
Module ServerForge.
Record t := { Name : string; URL : string }.
End ServerForge.
Abbreviation ServerForge := ServerForge.t.

(** Modelled from the spec: [metadata.Metadata], kept as the arguments
    the constructor [frontend.MetadataFromStruct] builds it from (forge,
    repository, current and previous pipeline, workflow, link): whatever
    the struct holds is a function of these. *)
Module Metadata.
Record t := {
  Forge : ServerForge;
  Repo : model.Repo;
  Curr : model.Pipeline;
  Prev : option model.Pipeline;
  Workflow : model.Workflow;
  Link : string }.
End Metadata.
Abbreviation Metadata := Metadata.t.

End metadata.

Module frontend.
(** Modelled from the spec: the constructor of the metadata. *)
Definition MetadataFromStruct (forge : metadata.ServerForge)
    (repo : model.Repo) (pipeline : model.Pipeline)
    (last : option model.Pipeline) (workflow : model.Workflow)
    (link : string) : metadata.Metadata :=
  {| metadata.Metadata.Forge := forge;
     metadata.Metadata.Repo := repo;
     metadata.Metadata.Curr := pipeline;
     metadata.Metadata.Prev := last;
     metadata.Metadata.Workflow := workflow;
     metadata.Metadata.Link := link |}.
End frontend.

Module yaml_types.

(** Modelled from the spec: a step of the declarative workflow, with its
    image, commands and secret references. *)
Module Container.
Record t := {
  Name : string;
  Image : string;
  Commands : list string;
  Secrets : list string }.
End Container.
Abbreviation Container := Container.t.

(** The parsed workflow.  [When] is the when-constraint, known by its
    [Match] method: [parsed.When.Match(md, global)] is
    [When parsed md global], a match flag and an optional error. *)
Module Workflow.
Record t := {
  When : metadata.Metadata → bool → bool * option string;
  Platform : string;
  Labels : option (gmap string string);
  DependsOn : list string;
  RunsOn : list string;
  Steps : list Container }.
End Workflow.
Abbreviation Workflow := Workflow.t.

End yaml_types.

(** Modelled from the spec: the executable plan of package
    [backend/types], which is not part of this file.  A plan is an ordered
    list of stages, a stage a list of steps, and a step carries its alias,
    UUID, image, commands, environment and injected secrets. *)
Module backend_types.

Module Secret.
Record t := { Name : string; Value : string }.
End Secret.
Abbreviation Secret := Secret.t.

Module Step.
Record t := {
  Alias : string;
  UUID : string;
  Image : string;
  Commands : list string;
  Environment : gmap string string;
  Secrets : list Secret }.
End Step.
Abbreviation Step := Step.t.

Module Stage.
Record t := { Steps : list Step }.
End Stage.
Abbreviation Stage := Stage.t.

Module Config.
Record t := { Stages : list Stage }.
End Config.
Abbreviation Config := Config.t.

End backend_types.

(** [server.Config.Pipeline], the administrator's settings. *)
Module server.

Module Limits.
Record t := {
  MemSwapLimit : Z;
  MemLimit : Z;
  ShmSize : Z;
  CPUQuota : Z;
  CPUShares : Z;
  CPUSet : string }.
End Limits.
Abbreviation Limits := Limits.t.

Module Pipeline.
Record t := {
  Limits : server.Limits;
  Volumes : list string;
  Networks : list string;
  Privileged : list string;
  DefaultCloneImage : string;
  AuthenticatePublicRepos : bool }.
End Pipeline.
Abbreviation Pipeline := Pipeline.t.

End server.

(** Modelled from the spec: the compiler's options, which are not part of
    this file.  "The semantics are a single struct of settings": every
    option records its arguments in the field of its own.  [WithEnviron]
    merges its argument into the environment of the compiler, the value of
    the later source replacing the value an earlier source gave the same
    name; what "later sources do not clobber" are the "metadata-provided
    names", which [WithMetadata] hands over with the metadata and the
    composition of the step environment puts back ([composeStep]
    below). *)
Module compiler.

Module Secret.
Record t := {
  Name : string;
  Value : string;
  Match : list string;
  PluginOnly : bool }.
End Secret.
Abbreviation Secret := Secret.t.

Module Registry.
Record t := {
  Hostname : string;
  Username : string;
  Password : string;
  Email : string }.
End Registry.
Abbreviation Registry := Registry.t.

Record Compiler := {
  local : bool;
  escalated : list string;
  prefix : string;
  volumes : list string;
  networks : list string;
  env : gmap string string;
  cloneEnv : option (string * string * string);
  base : string;
  path : string;
  metadata : option metadata.Metadata;
  registries : list Registry;
  secrets : list Secret;
  reslimit : option server.Limits;
  defaultCloneImage : string;
  proxy : bool;
  trusted : bool;
  netrcOnlyTrusted : bool }.

Definition Option := Compiler → Compiler.

Definition empty : Compiler :=
  {| local := false; escalated := []; prefix := ""; volumes := [];
     networks := []; env := ∅; cloneEnv := None; base := ""; path := "";
     metadata := None; registries := []; secrets := []; reslimit := None;
     defaultCloneImage := ""; proxy := false; trusted := false;
     netrcOnlyTrusted := false |}.

Definition WithEnviron (e : gmap string string) : Option := λ c,
  {| local := local c; escalated := escalated c; prefix := prefix c;
     volumes := volumes c; networks := networks c;
     env := e ∪ env c;
     cloneEnv := cloneEnv c; base := base c; path := path c;
     metadata := metadata c; registries := registries c;
     secrets := secrets c; reslimit := reslimit c;
     defaultCloneImage := defaultCloneImage c; proxy := proxy c;
     trusted := trusted c; netrcOnlyTrusted := netrcOnlyTrusted c |}.

Definition WithEscalated (images : list string) : Option := λ c,
  {| local := local c; escalated := images; prefix := prefix c;
     volumes := volumes c; networks := networks c; env := env c;
     cloneEnv := cloneEnv c; base := base c; path := path c;
     metadata := metadata c; registries := registries c;
     secrets := secrets c; reslimit := reslimit c;
     defaultCloneImage := defaultCloneImage c; proxy := proxy c;
     trusted := trusted c; netrcOnlyTrusted := netrcOnlyTrusted c |}.

Definition WithResourceLimit (swap mem shmSize cpuQuota cpuShares : Z)
    (cpuSet : string) : Option := λ c,
  {| local := local c; escalated := escalated c; prefix := prefix c;
     volumes := volumes c; networks := networks c; env := env c;
     cloneEnv := cloneEnv c; base := base c; path := path c;
     metadata := metadata c; registries := registries c;
     secrets := secrets c;
     reslimit := Some {| server.Limits.MemSwapLimit := swap;
                         server.Limits.MemLimit := mem;
                         server.Limits.ShmSize := shmSize;
                         server.Limits.CPUQuota := cpuQuota;
                         server.Limits.CPUShares := cpuShares;
                         server.Limits.CPUSet := cpuSet |};
     defaultCloneImage := defaultCloneImage c; proxy := proxy c;
     trusted := trusted c; netrcOnlyTrusted := netrcOnlyTrusted c |}.

Definition WithVolumes (vs : list string) : Option := λ c,
  {| local := local c; escalated := escalated c; prefix := prefix c;
     volumes := vs; networks := networks c; env := env c;
     cloneEnv := cloneEnv c; base := base c; path := path c;
     metadata := metadata c; registries := registries c;
     secrets := secrets c; reslimit := reslimit c;
     defaultCloneImage := defaultCloneImage c; proxy := proxy c;
     trusted := trusted c; netrcOnlyTrusted := netrcOnlyTrusted c |}.

Definition WithNetworks (ns : list string) : Option := λ c,
  {| local := local c; escalated := escalated c; prefix := prefix c;
     volumes := volumes c; networks := ns; env := env c;
     cloneEnv := cloneEnv c; base := base c; path := path c;
     metadata := metadata c; registries := registries c;
     secrets := secrets c; reslimit := reslimit c;
     defaultCloneImage := defaultCloneImage c; proxy := proxy c;
     trusted := trusted c; netrcOnlyTrusted := netrcOnlyTrusted c |}.

Definition WithLocal (l : bool) : Option := λ c,
  {| local := l; escalated := escalated c; prefix := prefix c;
     volumes := volumes c; networks := networks c; env := env c;
     cloneEnv := cloneEnv c; base := base c; path := path c;
     metadata := metadata c; registries := registries c;
     secrets := secrets c; reslimit := reslimit c;
     defaultCloneImage := defaultCloneImage c; proxy := proxy c;
     trusted := trusted c; netrcOnlyTrusted := netrcOnlyTrusted c |}.

Definition WithNetrc (username password machine : string) : Option := λ c,
  {| local := local c; escalated := escalated c; prefix := prefix c;
     volumes := volumes c; networks := networks c; env := env c;
     cloneEnv := Some (username, password, machine);
     base := base c; path := path c;
     metadata := metadata c; registries := registries c;
     secrets := secrets c; reslimit := reslimit c;
     defaultCloneImage := defaultCloneImage c; proxy := proxy c;
     trusted := trusted c; netrcOnlyTrusted := netrcOnlyTrusted c |}.

(** [WithOption(option, b)]: the option when [b] holds, nothing otherwise. *)
Definition WithOption (option : Option) (b : bool) : Option := λ c,
  if b then option c else c.

Definition WithDefaultCloneImage (image : string) : Option := λ c,
  {| local := local c; escalated := escalated c; prefix := prefix c;
     volumes := volumes c; networks := networks c; env := env c;
     cloneEnv := cloneEnv c; base := base c; path := path c;
     metadata := metadata c; registries := registries c;
     secrets := secrets c; reslimit := reslimit c;
     defaultCloneImage := image; proxy := proxy c;
     trusted := trusted c; netrcOnlyTrusted := netrcOnlyTrusted c |}.

Definition WithRegistry (rs : list Registry) : Option := λ c,
  {| local := local c; escalated := escalated c; prefix := prefix c;
     volumes := volumes c; networks := networks c; env := env c;
     cloneEnv := cloneEnv c; base := base c; path := path c;
     metadata := metadata c; registries := rs;
     secrets := secrets c; reslimit := reslimit c;
     defaultCloneImage := defaultCloneImage c; proxy := proxy c;
     trusted := trusted c; netrcOnlyTrusted := netrcOnlyTrusted c |}.

Definition WithSecret (ss : list Secret) : Option := λ c,
  {| local := local c; escalated := escalated c; prefix := prefix c;
     volumes := volumes c; networks := networks c; env := env c;
     cloneEnv := cloneEnv c; base := base c; path := path c;
     metadata := metadata c; registries := registries c;
     secrets := ss; reslimit := reslimit c;
     defaultCloneImage := defaultCloneImage c; proxy := proxy c;
     trusted := trusted c; netrcOnlyTrusted := netrcOnlyTrusted c |}.

Definition WithPrefix (p : string) : Option := λ c,
  {| local := local c; escalated := escalated c; prefix := p;
     volumes := volumes c; networks := networks c; env := env c;
     cloneEnv := cloneEnv c; base := base c; path := path c;
     metadata := metadata c; registries := registries c;
     secrets := secrets c; reslimit := reslimit c;
     defaultCloneImage := defaultCloneImage c; proxy := proxy c;
     trusted := trusted c; netrcOnlyTrusted := netrcOnlyTrusted c |}.

Definition WithProxy : Option := λ c,
  {| local := local c; escalated := escalated c; prefix := prefix c;
     volumes := volumes c; networks := networks c; env := env c;
     cloneEnv := cloneEnv c; base := base c; path := path c;
     metadata := metadata c; registries := registries c;
     secrets := secrets c; reslimit := reslimit c;
     defaultCloneImage := defaultCloneImage c; proxy := true;
     trusted := trusted c; netrcOnlyTrusted := netrcOnlyTrusted c |}.

Definition WithWorkspaceFromURL (b link : string) : Option := λ c,
  {| local := local c; escalated := escalated c; prefix := prefix c;
     volumes := volumes c; networks := networks c; env := env c;
     cloneEnv := cloneEnv c; base := b; path := link;
     metadata := metadata c; registries := registries c;
     secrets := secrets c; reslimit := reslimit c;
     defaultCloneImage := defaultCloneImage c; proxy := proxy c;
     trusted := trusted c; netrcOnlyTrusted := netrcOnlyTrusted c |}.

Definition WithMetadata (md : metadata.Metadata) : Option := λ c,
  {| local := local c; escalated := escalated c; prefix := prefix c;
     volumes := volumes c; networks := networks c; env := env c;
     cloneEnv := cloneEnv c; base := base c; path := path c;
     metadata := Some md; registries := registries c;
     secrets := secrets c; reslimit := reslimit c;
     defaultCloneImage := defaultCloneImage c; proxy := proxy c;
     trusted := trusted c; netrcOnlyTrusted := netrcOnlyTrusted c |}.

Definition WithTrusted (t : bool) : Option := λ c,
  {| local := local c; escalated := escalated c; prefix := prefix c;
     volumes := volumes c; networks := networks c; env := env c;
     cloneEnv := cloneEnv c; base := base c; path := path c;
     metadata := metadata c; registries := registries c;
     secrets := secrets c; reslimit := reslimit c;
     defaultCloneImage := defaultCloneImage c; proxy := proxy c;
     trusted := t; netrcOnlyTrusted := netrcOnlyTrusted c |}.

Definition WithNetrcOnlyTrusted (t : bool) : Option := λ c,
  {| local := local c; escalated := escalated c; prefix := prefix c;
     volumes := volumes c; networks := networks c; env := env c;
     cloneEnv := cloneEnv c; base := base c; path := path c;
     metadata := metadata c; registries := registries c;
     secrets := secrets c; reslimit := reslimit c;
     defaultCloneImage := defaultCloneImage c; proxy := proxy c;
     trusted := trusted c; netrcOnlyTrusted := t |}.

(** [compiler.New(opts...)]: the options applied in order to a fresh
    compiler. *)
Definition New (opts : list Option) : Compiler :=
  foldl (λ c opt, opt c) empty opts.

End compiler.

(** ** Package [pipeline]: [Item] and [StepBuilder] *)

Module Item.
Record t := {
  Workflow : model.Workflow;
  Platform : string;
  Labels : gmap string string;
  DependsOn : list string;
  RunsOn : list string;
  Config : backend_types.Config }.
End Item.
Abbreviation Item := Item.t.

Module StepBuilder.
Record t := {
  Repo : model.Repo;
  Curr : model.Pipeline;
  Last : option model.Pipeline;
  Netrc : model.Netrc;
  Secs : list model.Secret;
  Regs : list model.Registry;
  Link : string;
  Yamls : list forge_types.FileMeta;
  Envs : gmap string string;
  Forge : metadata.ServerForge }.
End StepBuilder.
Abbreviation StepBuilder := StepBuilder.t.

(** The functions of other packages that [Build] calls, and the one
    global it reads.  They are not part of this file; the builder is
    verified for every choice of them. *)
Module Packages.
Record t := {
  (** [forge_types.SortByName] *)
  SortByName : list forge_types.FileMeta → list forge_types.FileMeta;
  (** [matrix.ParseString] *)
  matrix_ParseString : string → string + list matrix.Axis;
  (** [metadata.Metadata.Environ] *)
  Environ : metadata.Metadata → gmap string string;
  (** [frontend.EnvVarSubst] *)
  EnvVarSubst : string → gmap string string → string + string;
  (** [yaml.ParseString] *)
  yaml_ParseString : string → string + yaml_types.Workflow;
  (** [linter.New(linter.WithTrusted(trusted)).Lint] *)
  Lint : bool → yaml_types.Workflow → option string;
  (** the method [Compile] of [compiler.Compiler] *)
  Compile : compiler.Compiler → yaml_types.Workflow
            → string + backend_types.Config;
  (** the method [Match] of [model.Secret] *)
  Match : model.Secret → model.WebhookEvent → bool;
  (** the glob match of an image against an allow-list of images *)
  admits : list string → string → bool;
  (** [ulid.Make().String()], by the number of identifiers drawn before *)
  ulid_Make : nat → string;
  (** [server.Config.Pipeline] *)
  Config : server.Pipeline }.
End Packages.
Abbreviation Packages := Packages.t.

(** *** The dependency reconciler *)

Fixpoint containsItemWithName (name : string) (items : list Item) : bool :=
  match items with
  | [] => false
  | item :: rest =>
      if String.eqb name (model.Workflow.Name (Item.Workflow item)) then true
      else containsItemWithName name rest
  end.

Fixpoint stepListContainsItemsToRun (items : list Item) : bool :=
  match items with
  | [] => false
  | item :: rest =>
      if String.eqb (model.Workflow.State (Item.Workflow item))
                    model.StatusPending
      then true
      else stepListContainsItemsToRun rest
  end.

(** The inner loop of the first pass: [item] is appended once for every
    dependency that no item of [items] bears. *)
Definition missingDependencies (items : list Item) (itemsToRemove : list Item)
    (item : Item) : list Item :=
  foldl (λ itemsToRemove dep,
           if negb (containsItemWithName dep items)
           then itemsToRemove ++ [item]
           else itemsToRemove)
        itemsToRemove (Item.DependsOn item).

(** The first pass of [filterItemsWithMissingDependencies]. *)
Definition itemsToRemove (items : list Item) : list Item :=
  foldl (missingDependencies items) [] items.

(** The second pass: the items whose name no item to remove bears. *)
Definition filtered (items itemsToRemove : list Item) : list Item :=
  foldl (λ filtered item,
           if negb (containsItemWithName
                      (model.Workflow.Name (Item.Workflow item)) itemsToRemove)
           then filtered ++ [item]
           else filtered)
        [] items.

Lemma foldl_keep_app {A} (keep : A → bool) (l acc : list A) :
  foldl (λ acc x, if keep x then acc ++ [x] else acc) acc l
  = acc ++ List.filter keep l.
Proof.
  revert acc. induction l as [|x l IH]; intros acc; simpl.
  - by rewrite app_nil_r.
  - rewrite IH. destruct (keep x); [rewrite <- app_assoc|]; done.
Qed.

Lemma filtered_filter items rm :
  filtered items rm
  = List.filter (λ item, negb (containsItemWithName
                                 (model.Workflow.Name (Item.Workflow item)) rm))
                items.
Proof. unfold filtered. by rewrite foldl_keep_app. Qed.

Lemma containsItemWithName_In name items :
  containsItemWithName name items = true
  ↔ ∃ item, In item items ∧ model.Workflow.Name (Item.Workflow item) = name.
Proof.
  induction items as [|x l IH]; simpl.
  - split; [done | intros (? & [] & _)].
  - destruct (String.eqb_spec name (model.Workflow.Name (Item.Workflow x)))
      as [->|Hne].
    + split; [|done]. intros _. exists x. auto.
    + rewrite IH. split.
      * intros (i & Hi & Hn). exists i. auto.
      * intros (i & [->|Hi] & Hn); [congruence|]. exists i. auto.
Qed.

Lemma missingDependencies_In items acc item x :
  In x (missingDependencies items acc item)
  ↔ In x acc ∨ (x = item ∧ ∃ dep, In dep (Item.DependsOn item)
                                  ∧ containsItemWithName dep items = false).
Proof.
  unfold missingDependencies. generalize (Item.DependsOn item) as deps.
  intros deps. revert acc. induction deps as [|d deps IH]; intros acc; simpl.
  - split; [auto | intros [?|(_ & ? & [] & _)]; done].
  - rewrite IH. destruct (containsItemWithName d items) eqn:Hd; simpl.
    + split.
      * intros [?|(-> & dep & ? & ?)]; [auto|]. right. split; [done|].
        exists dep. auto.
      * intros [?|(-> & dep & [->|?] & ?)]; [auto|congruence|].
        right. split; [done|]. exists dep. auto.
    + rewrite in_app_iff. simpl. split.
      * intros [[?|[->|[]]]|(-> & dep & ? & ?)]; [auto| |].
        -- right. split; [done|]. exists d. auto.
        -- right. split; [done|]. exists dep. auto.
      * intros [?|(-> & dep & _)]; auto.
Qed.

Lemma itemsToRemove_In items x :
  In x (itemsToRemove items)
  ↔ In x items ∧ ∃ dep, In dep (Item.DependsOn x)
                        ∧ containsItemWithName dep items = false.
Proof.
  unfold itemsToRemove.
  assert (H : ∀ l acc,
    In x (foldl (missingDependencies items) acc l)
    ↔ In x acc ∨ (In x l ∧ ∃ dep, In dep (Item.DependsOn x)
                                 ∧ containsItemWithName dep items = false)).
  { induction l as [|y l IH]; intros acc; simpl.
    - split; [auto | intros [?|([] & _)]; done].
    - rewrite IH, missingDependencies_In. split.
      + intros [[?|(-> & ?)]|(? & ?)]; auto.
      + intros [?|([->|?] & ?)]; auto. }
  rewrite H. simpl. split; [intros [[]|?]; done | auto].
Qed.

(** A pass that removes something returns a shorter list: the first item
    to remove is itself among the items and is dropped by name. *)
Lemma filtered_shorter items r rs :
  itemsToRemove items = r :: rs →
  (length (filtered items (r :: rs)) < length items)%nat.
Proof.
  intros Heq.
  assert (Hr : In r items).
  { apply (itemsToRemove_In items r). rewrite Heq. by left. }
  rewrite filtered_filter.
  match goal with |- context [List.filter ?f _] => set (keep := f) end.
  assert (Hk : keep r = false).
  { unfold keep. simpl. by rewrite String.eqb_refl. }
  clearbody keep. clear Heq.
  induction items as [|y l IH]; simpl in *; [done|].
  destruct Hr as [->|Hr].
  - rewrite Hk. pose proof (List.filter_length_le keep l). lia.
  - specialize (IH Hr). destruct (keep y); simpl; lia.
Qed.

#[local] Obligation Tactic := idtac.

Equations filterItemsWithMissingDependencies (items : list Item) : list Item
  by wf (length items) lt :=
filterItemsWithMissingDependencies items with inspect (itemsToRemove items) := {
  | exist _ [] _ => items
  | exist _ (r :: rs) Heq =>
      filterItemsWithMissingDependencies (filtered items (r :: rs)) }.
Next Obligation. intros items r rs Heq _. by apply filtered_shorter. Qed.

(** *** The builder *)

(** What the loops of [Build] carry from one workflow to the next: the
    items appended so far, the PID counter, and how many identifiers were
    drawn from the ULID generator. *)
Module State.
Record t := {
  items : list Item;
  pidSequence : Z;
  drawn : nat }.
End State.
Abbreviation State := State.t.

Section Builder.

Variable P : Packages.

(** [b.environmentVariables(metadata, axis)] *)
Definition environmentVariables (md : metadata.Metadata) (axis : matrix.Axis)
    : gmap string string :=
  map_fold (λ k v environ, <[k := v]> environ) (Packages.Environ P md) axis.

(** The loop that adds the global environment variables for substituting. *)
Definition addGlobals (envs environ : gmap string string)
    : gmap string string :=
  map_fold (λ k v environ,
              match environ !! k with
              | Some _ => environ   (* don't override existing values *)
              | None => <[k := v]> environ
              end)
           environ envs.

(** The first loop of [toInternalRepresentation]. *)
Definition compilerSecrets (b : StepBuilder) : list compiler.Secret :=
  foldl (λ secrets sec,
           if negb (Packages.Match P sec
                      (model.Pipeline.Event (StepBuilder.Curr b)))
           then secrets
           else secrets ++
                [ {| compiler.Secret.Name := model.Secret.Name sec;
                     compiler.Secret.Value := model.Secret.Value sec;
                     compiler.Secret.Match := model.Secret.Images sec;
                     compiler.Secret.PluginOnly :=
                       model.Secret.PluginsOnly sec |} ])
        [] (StepBuilder.Secs b).

(** The second loop of [toInternalRepresentation]. *)
Definition compilerRegistries (b : StepBuilder) : list compiler.Registry :=
  foldl (λ registries reg,
           registries ++
           [ {| compiler.Registry.Hostname := model.Registry.Address reg;
                compiler.Registry.Username := model.Registry.Username reg;
                compiler.Registry.Password := model.Registry.Password reg;
                compiler.Registry.Email := model.Registry.Email reg |} ])
        [] (StepBuilder.Regs b).

(** The compiler [toInternalRepresentation] sets up; [ulid] is the
    identifier [ulid.Make()] returns at this call. *)
Definition newCompiler (b : StepBuilder) (environ : gmap string string)
    (md : metadata.Metadata) (stepID : Z) (ulid : string)
    : compiler.Compiler :=
  let cfg := Packages.Config P in
  let limits := server.Pipeline.Limits cfg in
  compiler.New [
    compiler.WithEnviron environ;
    compiler.WithEnviron (StepBuilder.Envs b);
    compiler.WithEscalated (server.Pipeline.Privileged cfg);
    compiler.WithResourceLimit
      (server.Limits.MemSwapLimit limits) (server.Limits.MemLimit limits)
      (server.Limits.ShmSize limits) (server.Limits.CPUQuota limits)
      (server.Limits.CPUShares limits) (server.Limits.CPUSet limits);
    compiler.WithVolumes (server.Pipeline.Volumes cfg);
    compiler.WithNetworks (server.Pipeline.Networks cfg);
    compiler.WithLocal false;
    compiler.WithOption
      (compiler.WithNetrc
         (model.Netrc.Login (StepBuilder.Netrc b))
         (model.Netrc.Password (StepBuilder.Netrc b))
         (model.Netrc.Machine (StepBuilder.Netrc b)))
      (model.Repo.IsSCMPrivate (StepBuilder.Repo b)
       || server.Pipeline.AuthenticatePublicRepos cfg);
    compiler.WithDefaultCloneImage (server.Pipeline.DefaultCloneImage cfg);
    compiler.WithRegistry (compilerRegistries b);
    compiler.WithSecret (compilerSecrets b);
    compiler.WithPrefix ("wp_" +:+ ToLower ulid +:+ "_" +:+ pretty stepID);
    compiler.WithProxy;
    compiler.WithWorkspaceFromURL "/woodpecker"
      (model.Repo.Link (StepBuilder.Repo b));
    compiler.WithMetadata md;
    compiler.WithTrusted (model.Repo.IsTrusted (StepBuilder.Repo b));
    compiler.WithNetrcOnlyTrusted
      (model.Repo.NetrcOnlyTrusted (StepBuilder.Repo b))
  ].

Definition toInternalRepresentation (b : StepBuilder)
    (parsed : yaml_types.Workflow) (environ : gmap string string)
    (md : metadata.Metadata) (stepID : Z) (ulid : string)
    : string + backend_types.Config :=
  Packages.Compile P (newCompiler b environ md stepID ulid) parsed.

(** The workflow record created for one axis of one file. *)
Definition newWorkflow (b : StepBuilder) (y : forge_types.FileMeta)
    (axis : matrix.Axis) (pidSequence : Z) : model.Workflow :=
  {| model.Workflow.ID := 0;
     model.Workflow.PipelineID := model.Pipeline.ID (StepBuilder.Curr b);
     model.Workflow.PID := pidSequence;
     model.Workflow.State := model.StatusPending;
     model.Workflow.Environ := axis;
     model.Workflow.Name := SanitizePath (forge_types.FileMeta.Name y) |}.

(** The substitution environment of one workflow: metadata, then the
    axis, then the globals that are not bound yet. *)
Definition substEnviron (b : StepBuilder) (workflow : model.Workflow)
    (axis : matrix.Axis) : gmap string string :=
  let workflowMetadata :=
    frontend.MetadataFromStruct (StepBuilder.Forge b) (StepBuilder.Repo b)
      (StepBuilder.Curr b) (StepBuilder.Last b) workflow (StepBuilder.Link b) in
  addGlobals (StepBuilder.Envs b) (environmentVariables workflowMetadata axis).

(** The body of the inner loop of [Build], for one axis of the file [y]. *)
Definition buildAxis (b : StepBuilder) (y : forge_types.FileMeta)
    (axis : matrix.Axis) (st : State) : error + State :=
  let workflow := newWorkflow b y axis (State.pidSequence st) in
  let workflowMetadata :=
    frontend.MetadataFromStruct (StepBuilder.Forge b) (StepBuilder.Repo b)
      (StepBuilder.Curr b) (StepBuilder.Last b) workflow (StepBuilder.Link b) in
  let environ := substEnviron b workflow axis in
  (* substitute vars *)
  match Packages.EnvVarSubst P (forge_types.FileMeta.Data y) environ with
  | inl err => inl (Upstream err)
  | inr substituted =>
  (* parse yaml pipeline *)
  match Packages.yaml_ParseString P substituted with
  | inl err => inl (PipelineParseError err)
  | inr parsed =>
  (* lint pipeline *)
  match Packages.Lint P (model.Repo.IsTrusted (StepBuilder.Repo b)) parsed with
  | Some err => inl (PipelineParseError err)
  | None =>
  (* checking if filtered *)
  let '(match_, err) := yaml_types.Workflow.When parsed workflowMetadata true in
  let checked : error + model.Workflow :=
    if negb match_ && bool_decide (err = None)
    then inr (model.Workflow.withState model.StatusSkipped workflow)
    else match err with
         | Some err => inl (Upstream err)
         | None => inr workflow
         end in
  match checked with
  | inl err => inl err
  | inr workflow =>
  match toInternalRepresentation b parsed environ workflowMetadata
          (model.Workflow.ID workflow)
          (Packages.ulid_Make P (State.drawn st)) with
  | inl err => inl (Upstream err)
  | inr ir =>
  if (length (backend_types.Config.Stages ir) =? 0)%nat
  then (* continue *)
       inr {| State.items := State.items st;
              State.pidSequence := State.pidSequence st;
              State.drawn := S (State.drawn st) |}
  else
    let item :=
      {| Item.Workflow := workflow;
         Item.Config := ir;
         Item.Labels := default ∅ (yaml_types.Workflow.Labels parsed);
         Item.DependsOn := yaml_types.Workflow.DependsOn parsed;
         Item.RunsOn := yaml_types.Workflow.RunsOn parsed;
         Item.Platform := yaml_types.Workflow.Platform parsed |} in
    inr {| State.items := State.items st ++ [item];
           State.pidSequence := incr (State.pidSequence st);
           State.drawn := S (State.drawn st) |}
  end end end end end.

(** [for _, axis := range axes { ... }] *)
Fixpoint buildAxes (b : StepBuilder) (y : forge_types.FileMeta)
    (axes : list matrix.Axis) (st : State) : error + State :=
  match axes with
  | [] => inr st
  | axis :: rest =>
      match buildAxis b y axis st with
      | inl err => inl err
      | inr st => buildAxes b y rest st
      end
  end.

(** The axes one file is compiled for. *)
Definition axesOf (y : forge_types.FileMeta) : string + list matrix.Axis :=
  match Packages.matrix_ParseString P (forge_types.FileMeta.Data y) with
  | inl err => inl err
  | inr axes =>
      inr (if (length axes =? 0)%nat then axes ++ [∅] else axes)
  end.

(** [for _, y := range b.Yamls { ... }] *)
Fixpoint buildYamls (b : StepBuilder) (yamls : list forge_types.FileMeta)
    (st : State) : error + State :=
  match yamls with
  | [] => inr st
  | y :: rest =>
      match axesOf y with
      | inl err => inl (Upstream err)
      | inr axes =>
          match buildAxes b y axes st with
          | inl err => inl err
          | inr st => buildYamls b rest st
          end
      end
  end.

Definition initial : State :=
  {| State.items := []; State.pidSequence := 1; State.drawn := 0 |}.

(** [Build] up to the reconciliation of dependencies. *)
Definition collect (b : StepBuilder) : error + State :=
  buildYamls b (Packages.SortByName P (StepBuilder.Yamls b)) initial.

Definition Build (b : StepBuilder) : error + list Item :=
  match collect b with
  | inl err => inl err
  | inr st =>
      let items := filterItemsWithMissingDependencies (State.items st) in
      (* check if at least one step can start, if list is not empty *)
      if (0 <? length items)%nat && negb (stepListContainsItemsToRun items)
      then inl (Errorf "pipeline has no startpoint")
      else inr items
  end.

End Builder.

(** ** Notions the properties are stated with *)

(** Where a second pass over sanitized bytes leaves them alone. *)
Definition settled (s : list ascii) : bool :=
  negb (Path.HasSuffix s dot_yml) && negb (Path.HasSuffix s dot_yaml)
  && negb (Path.HasPrefix s dot).

(** The item with the state of its workflow replaced. *)
Definition restate (g : Item → model.StatusValue) (item : Item) : Item :=
  {| Item.Workflow := model.Workflow.withState (g item) (Item.Workflow item);
     Item.Platform := Item.Platform item;
     Item.Labels := Item.Labels item;
     Item.DependsOn := Item.DependsOn item;
     Item.RunsOn := Item.RunsOn item;
     Item.Config := Item.Config item |}.

(** A set of names closed under dependencies, each borne by an item. *)
Definition closedNames (N : string → Prop) (items : list Item) : Prop :=
  ∀ item, In item items → N (model.Workflow.Name (Item.Workflow item)) →
  ∀ dep, In dep (Item.DependsOn item) →
         N dep ∧ containsItemWithName dep items = true.

(** [Build] reaches the axis [axis] of the file [y] with the loop state
    [st]: the files before [y] and the axes of [y] before [axis] were
    compiled without error, and left [st]. *)
Definition visits (P : Packages) (b : StepBuilder) (y : forge_types.FileMeta)
    (axis : matrix.Axis) (st : State) : Prop :=
  ∃ ys1 ys2 axes1 axes2 st1,
    Packages.SortByName P (StepBuilder.Yamls b) = ys1 ++ y :: ys2
    ∧ buildYamls P b ys1 initial = inr st1
    ∧ axesOf P y = inr (axes1 ++ axis :: axes2)
    ∧ buildAxes P b y axes1 st1 = inr st.

(** The metadata of the workflow [Build] creates at a visit. *)
Definition metadataAt (b : StepBuilder) (y : forge_types.FileMeta)
    (axis : matrix.Axis) (st : State) : metadata.Metadata :=
  frontend.MetadataFromStruct (StepBuilder.Forge b) (StepBuilder.Repo b)
    (StepBuilder.Curr b) (StepBuilder.Last b)
    (newWorkflow b y axis (State.pidSequence st)) (StepBuilder.Link b).

(** The parsed workflow of a visit: substitution, parsing and linting
    went through. *)
Definition parsesTo (P : Packages) (b : StepBuilder)
    (y : forge_types.FileMeta) (axis : matrix.Axis) (st : State)
    (parsed : yaml_types.Workflow) : Prop :=
  ∃ substituted,
    Packages.EnvVarSubst P (forge_types.FileMeta.Data y)
      (substEnviron P b (newWorkflow b y axis (State.pidSequence st)) axis)
    = inr substituted
    ∧ Packages.yaml_ParseString P substituted = inr parsed
    ∧ Packages.Lint P (model.Repo.IsTrusted (StepBuilder.Repo b)) parsed = None.

(** The plan compiled at a visit. *)
Definition planAt (P : Packages) (b : StepBuilder) (y : forge_types.FileMeta)
    (axis : matrix.Axis) (st : State) (parsed : yaml_types.Workflow)
    : string + backend_types.Config :=
  toInternalRepresentation P b parsed
    (substEnviron P b (newWorkflow b y axis (State.pidSequence st)) axis)
    (metadataAt b y axis st) 0
    (Packages.ulid_Make P (State.drawn st)).

(** The item [Build] makes at a visit. *)
Definition itemAt (b : StepBuilder) (y : forge_types.FileMeta)
    (axis : matrix.Axis) (st : State) (state : model.StatusValue)
    (parsed : yaml_types.Workflow) (ir : backend_types.Config) : Item :=
  {| Item.Workflow :=
       model.Workflow.withState state
         (newWorkflow b y axis (State.pidSequence st));
     Item.Config := ir;
     Item.Labels := default ∅ (yaml_types.Workflow.Labels parsed);
     Item.DependsOn := yaml_types.Workflow.DependsOn parsed;
     Item.RunsOn := yaml_types.Workflow.RunsOn parsed;
     Item.Platform := yaml_types.Workflow.Platform parsed |}.

Definition appended (st : State) (item : Item) : State :=
  {| State.items := State.items st ++ [item];
     State.pidSequence := incr (State.pidSequence st);
     State.drawn := S (State.drawn st) |}.

Definition dropped (st : State) : State :=
  {| State.items := State.items st;
     State.pidSequence := State.pidSequence st;
     State.drawn := S (State.drawn st) |}.

(** The state the when-filter leaves the workflow in. *)
Definition stateOf (m : bool) : model.StatusValue :=
  if m then model.StatusPending else model.StatusSkipped.

(** The size of the matrix of a file: the number of axes
    [matrix.ParseString] returns, or one where it returns none. *)
Definition matrixSize (P : Packages) (y : forge_types.FileMeta) : nat :=
  match Packages.matrix_ParseString P (forge_types.FileMeta.Data y) with
  | inl _ => 0
  | inr axes => if (length axes =? 0)%nat then 1 else length axes
  end.

Definition PIDs (items : list Item) : list Z :=
  (λ item, model.Workflow.PID (Item.Workflow item)) <$> items.

(** The PIDs [1], [2], ..., [n]. *)
Definition firstPIDs (n : nat) : list Z := Z.of_nat <$> seq 1 n.

(** Every collected item was made at some turn, from a workflow that went
    through substitution, parsing, linting and the when-filter, with the
    plan the compiler returned for it. *)
Definition madeByBuild (P : Packages) (b : StepBuilder) (item : Item)
    : Prop :=
  ∃ y axis st parsed m ir,
    parsesTo P b y axis st parsed
    ∧ yaml_types.Workflow.When parsed (metadataAt b y axis st) true = (m, None)
    ∧ planAt P b y axis st parsed = inr ir
    ∧ backend_types.Config.Stages ir ≠ []
    ∧ item = itemAt b y axis st (stateOf m) parsed ir.

(** The counter is one more than the number of items, and the items
    carry the values the counter went through. *)
Definition numbered (st : State) : Prop :=
  State.pidSequence st = wrap_int (Z.of_nat (S (length (State.items st))))
  ∧ PIDs (State.items st)
    = (λ i, wrap_int (Z.of_nat i)) <$> seq 1 (length (State.items st)).


(** The plans compiled by the loops of [Build], in the order of the
    traversal: the plan of a turn that went through, be it empty or not. *)
Definition turnPlan (P : Packages) (b : StepBuilder)
    (y : forge_types.FileMeta) (axis : matrix.Axis) (st : State)
    : list backend_types.Config :=
  match Packages.EnvVarSubst P (forge_types.FileMeta.Data y)
          (substEnviron P b (newWorkflow b y axis (State.pidSequence st)) axis)
  with
  | inl _ => []
  | inr substituted =>
      match Packages.yaml_ParseString P substituted with
      | inl _ => []
      | inr parsed =>
          match planAt P b y axis st parsed with
          | inl _ => []
          | inr ir => [ir]
          end
      end
  end.

Fixpoint axesPlans (P : Packages) (b : StepBuilder) (y : forge_types.FileMeta)
    (axes : list matrix.Axis) (st : State) : list backend_types.Config :=
  match axes with
  | [] => []
  | axis :: rest =>
      match buildAxis P b y axis st with
      | inl _ => []
      | inr st' => turnPlan P b y axis st ++ axesPlans P b y rest st'
      end
  end.

Fixpoint yamlsPlans (P : Packages) (b : StepBuilder)
    (yamls : list forge_types.FileMeta) (st : State)
    : list backend_types.Config :=
  match yamls with
  | [] => []
  | y :: rest =>
      match axesOf P y with
      | inl _ => []
      | inr axes =>
          match buildAxes P b y axes st with
          | inl _ => []
          | inr st' => axesPlans P b y axes st ++ yamlsPlans P b rest st'
          end
      end
  end.

Definition compiledPlans (P : Packages) (b : StepBuilder)
    : list backend_types.Config :=
  yamlsPlans P b (Packages.SortByName P (StepBuilder.Yamls b)) initial.

(** [len(ir.Stages) != 0] *)
Definition hasStages (ir : backend_types.Config) : bool :=
  negb (length (backend_types.Config.Stages ir) =? 0)%nat.

(** The number of plans of the run that have no stage. *)
Definition emptyPlans (P : Packages) (b : StepBuilder) : nat :=
  length (List.filter (λ ir, negb (hasStages ir)) (compiledPlans P b)).

(** ** The compiler of the design document, for secrets and environment *)

(** Modelled from the spec: the secret injection of the compiler, which
    is not part of this file (section 4.8).  The secrets the compiler is
    given are those whose event allow-list includes the current event
    ([compilerSecrets]); of these, "a secret reaches a step iff" "its
    image allow-list admits the step's image" and "its plugin-only flag is
    compatible (plugin-only secrets only reach steps that declare no
    custom commands)". *)
Definition reachesStep (P : Packages) (s : compiler.Secret)
    (step : backend_types.Step) : bool :=
  Packages.admits P (compiler.Secret.Match s) (backend_types.Step.Image step)
  && (negb (compiler.Secret.PluginOnly s)
      || (length (backend_types.Step.Commands step) =? 0)%nat).

(** Modelled from the spec: "The secret's value becomes a step
    environment variable under its declared name", for every secret that
    reaches the step, in the order of the secrets. *)
Definition injectSecrets (P : Packages) (secrets : list compiler.Secret)
    (step : backend_types.Step) (environment : gmap string string)
    : gmap string string :=
  foldl (λ environment s,
           if reachesStep P s step
           then <[compiler.Secret.Name s := compiler.Secret.Value s]>
                  environment
           else environment)
        environment secrets.

(** Modelled from the spec: the "injected secrets (filtered by image
    allow-list and plugin-only flag)" a step carries. *)
Definition injectedSecrets (P : Packages) (secrets : list compiler.Secret)
    (step : backend_types.Step) : list backend_types.Secret :=
  (λ s, {| backend_types.Secret.Name := compiler.Secret.Name s;
           backend_types.Secret.Value := compiler.Secret.Value s |})
  <$> List.filter (λ s, reachesStep P s step) secrets.

(** The names the metadata handed to the compiler provides. *)
Definition metadataEnviron (P : Packages) (c : compiler.Compiler)
    : gmap string string :=
  match compiler.metadata c with
  | Some md => Packages.Environ P md
  | None => ∅
  end.

(** Modelled from the spec: the composition of the environment of a step
    (section 4.8), which is not part of this file.  The step comes from
    the lowering with the environment merged from the environment of the
    compiler and its own; it receives the secrets that reach it; and the
    names the metadata provides have the value of the metadata, whatever
    came after: "later sources do not clobber earlier metadata-provided
    names". *)
Definition composeStep (P : Packages) (c : compiler.Compiler)
    (step : backend_types.Step) : backend_types.Step :=
  {| backend_types.Step.Alias := backend_types.Step.Alias step;
     backend_types.Step.UUID := backend_types.Step.UUID step;
     backend_types.Step.Image := backend_types.Step.Image step;
     backend_types.Step.Commands := backend_types.Step.Commands step;
     backend_types.Step.Environment :=
       metadataEnviron P c
       ∪ injectSecrets P (compiler.secrets c) step
           (backend_types.Step.Environment step);
     backend_types.Step.Secrets :=
       injectedSecrets P (compiler.secrets c) step |}.

(** The plan, with every step of every stage composed. *)
Definition composePlan (P : Packages) (c : compiler.Compiler)
    (ir : backend_types.Config) : backend_types.Config :=
  {| backend_types.Config.Stages :=
       (λ stage, {| backend_types.Stage.Steps :=
                      composeStep P c <$> backend_types.Stage.Steps stage |})
       <$> backend_types.Config.Stages ir |}.

(** Modelled from the spec: the method [Compile] of the compiler, as far
    as secrets and the environment go.  The stages and the steps are
    lowered by [Packages.Compile] from the settings without the secrets,
    so that no secret enters a step but by the injection; the environment
    of each step is then composed as above. *)
Definition specCompile (P : Packages) (c : compiler.Compiler)
    (parsed : yaml_types.Workflow) : string + backend_types.Config :=
  match Packages.Compile P (compiler.WithSecret [] c) parsed with
  | inl err => inl err
  | inr ir => inr (composePlan P c ir)
  end.

(** The packages, with the compiler of the design document in the place
    of [Packages.Compile]. *)
Definition specified (P : Packages) : Packages :=
  {| Packages.SortByName := Packages.SortByName P;
     Packages.matrix_ParseString := Packages.matrix_ParseString P;
     Packages.Environ := Packages.Environ P;
     Packages.EnvVarSubst := Packages.EnvVarSubst P;
     Packages.yaml_ParseString := Packages.yaml_ParseString P;
     Packages.Lint := Packages.Lint P;
     Packages.Compile := specCompile P;
     Packages.Match := Packages.Match P;
     Packages.admits := Packages.admits P;
     Packages.ulid_Make := Packages.ulid_Make P;
     Packages.Config := Packages.Config P |}.


(** ** The properties of the design document, as they are written *)

(** C2, as the design states it: the PIDs of the items [Build] returns
    are [1], ..., [n] for the [n] items returned. *)
Definition PIDsDense : Prop :=
  ∀ (P : Packages) (b : StepBuilder) (items : list Item),
    Build P b = inr items → PIDs items = firstPIDs (length items).

(** C3, as the design states it: a workflow whose when-predicate is false
    without error is in the list [Build] returns, in the skipped state. *)
Definition skippedRetained : Prop :=
  ∀ (P : Packages) (b : StepBuilder) y axis st parsed,
    visits P b y axis st →
    parsesTo P b y axis st parsed →
    yaml_types.Workflow.When parsed (metadataAt b y axis st) true
    = (false, None) →
    ∃ items item,
      Build P b = inr items ∧ In item items
      ∧ Item.Workflow item
        = model.Workflow.withState model.StatusSkipped
            (newWorkflow b y axis (State.pidSequence st)).


(** C7, as the design states it. *)
Definition itemsCountMatrix : Prop :=
  ∀ (P : Packages) (b : StepBuilder) (items : list Item),
    Build P b = inr items →
    length items = sum_list (matrixSize P <$> StepBuilder.Yamls b).

(** C8, as the design states it: a rejection by the linter makes [Build]
    fail with an error of a kind other than [PipelineParseError]. *)
Definition lintErrorDistinct : Prop :=
  ∀ (P : Packages) (b : StepBuilder) y axis st substituted parsed err,
    visits P b y axis st →
    Packages.EnvVarSubst P (forge_types.FileMeta.Data y)
      (substEnviron P b (newWorkflow b y axis (State.pidSequence st)) axis)
    = inr substituted →
    Packages.yaml_ParseString P substituted = inr parsed →
    Packages.Lint P (model.Repo.IsTrusted (StepBuilder.Repo b)) parsed
    = Some err →
    ∃ e, Build P b = inl e ∧ kindOf e ≠ KindPipelineParseError.

(** The reading of C10 as it is written: an item all of whose dependencies
    are its own name or the name of a skipped item of the list is kept. *)
Definition keepsSelfAndSkippedDependants : Prop :=
  ∀ (items : list Item) (item : Item),
    In item items →
    (∀ dep, In dep (Item.DependsOn item) →
       dep = model.Workflow.Name (Item.Workflow item)
       ∨ ∃ s, In s items
              ∧ model.Workflow.Name (Item.Workflow s) = dep
              ∧ model.Workflow.State (Item.Workflow s) = model.StatusSkipped) →
    In item (filterItemsWithMissingDependencies items).

(** ** Scenarios: a small forge to run the builder on *)

Module Scenario.

Definition echo : yaml_types.Container :=
  {| yaml_types.Container.Name := "build";
     yaml_types.Container.Image := "alpine";
     yaml_types.Container.Commands := ["echo hi"];
     yaml_types.Container.Secrets := [] |}.

Definition publish : yaml_types.Container :=
  {| yaml_types.Container.Name := "publish";
     yaml_types.Container.Image := "plugins/docker";
     yaml_types.Container.Commands := [];
     yaml_types.Container.Secrets := ["TOKEN"] |}.

Definition imageless : yaml_types.Container :=
  {| yaml_types.Container.Name := "broken";
     yaml_types.Container.Image := "";
     yaml_types.Container.Commands := ["echo hi"];
     yaml_types.Container.Secrets := [] |}.

(** When-constraints. *)
Definition always : metadata.Metadata → bool → bool * option string :=
  λ _ _, (true, None).

Definition onEvent (event : string)
    : metadata.Metadata → bool → bool * option string :=
  λ md _,
    (String.eqb (model.Pipeline.Event (metadata.Metadata.Curr md)) event,
     None).

Definition malformed : metadata.Metadata → bool → bool * option string :=
  λ _ _, (false, Some "could not evaluate the when expression").

Definition workflow (when : metadata.Metadata → bool → bool * option string)
    (dependsOn : list string) (steps : list yaml_types.Container)
    : yaml_types.Workflow :=
  {| yaml_types.Workflow.When := when;
     yaml_types.Workflow.Platform := "";
     yaml_types.Workflow.Labels := None;
     yaml_types.Workflow.DependsOn := dependsOn;
     yaml_types.Workflow.RunsOn := [];
     yaml_types.Workflow.Steps := steps |}.

(** The texts of the source files, and what the parser makes of each. *)
Definition plain : string :=
  "steps: [{name: build, image: alpine, commands: [echo hi]}]".
Definition plugin : string :=
  "steps: [{name: publish, image: plugins/docker, secrets: [TOKEN]}]".
Definition needs_b : string :=
  "depends_on: [b]; steps: [{name: build, image: alpine, commands: [echo hi]}]".
Definition needs_a : string :=
  "depends_on: [a]; steps: [{name: build, image: alpine, commands: [echo hi]}]".
Definition on_push : string :=
  "when: {event: push}; steps: [{name: build, image: alpine, commands: [echo hi]}]".
Definition on_push_empty : string :=
  "when: {event: push}; steps: []".
Definition no_steps : string :=
  "steps: []".
Definition no_image : string :=
  "steps: [{name: broken, commands: [echo hi]}]".
Definition bad_when : string :=
  "when: {evaluate: '1 +'}; steps: [{name: build, image: alpine, commands: [echo hi]}]".
Definition two_by_one : string :=
  "matrix: {os: [linux, mac]}; steps: [{name: build, image: alpine, commands: [echo hi]}]".

Definition parse (text : string) : string + yaml_types.Workflow :=
  if String.eqb text plain then inr (workflow always [] [echo])
  else if String.eqb text plugin then inr (workflow always [] [publish])
  else if String.eqb text needs_b then inr (workflow always ["b"] [echo])
  else if String.eqb text needs_a then inr (workflow always ["a"] [echo])
  else if String.eqb text on_push then inr (workflow (onEvent "push") [] [echo])
  else if String.eqb text on_push_empty then inr (workflow (onEvent "push") [] [])
  else if String.eqb text no_steps then inr (workflow always [] [])
  else if String.eqb text no_image then inr (workflow always [] [imageless])
  else if String.eqb text bad_when then inr (workflow malformed [] [echo])
  else if String.eqb text two_by_one then inr (workflow always [] [echo])
  else inl "yaml: unmarshal errors".

Definition parseMatrix (text : string) : string + list matrix.Axis :=
  if String.eqb text two_by_one
  then inr [ {[ "os" := "linux" ]}; {[ "os" := "mac" ]} ]
  else inr [].

Definition lint (trusted : bool) (w : yaml_types.Workflow) : option string :=
  if existsb (λ c, String.eqb (yaml_types.Container.Image c) "")
             (yaml_types.Workflow.Steps w)
  then Some "Invalid or missing image"
  else None.

(** An allow-list admits an image it names; an empty one admits all. *)
Definition admitsImage (images : list string) (image : string) : bool :=
  match images with
  | [] => true
  | _ => existsb (String.eqb image) images
  end.

Definition eventListed (sec : model.Secret) (event : model.WebhookEvent)
    : bool :=
  existsb (String.eqb event) (model.Secret.Events sec).

(** The secrets of the compiler a step receives. *)
Definition injected (c : compiler.Compiler) (step : yaml_types.Container)
    : list backend_types.Secret :=
  (λ s, {| backend_types.Secret.Name := compiler.Secret.Name s;
           backend_types.Secret.Value := compiler.Secret.Value s |})
  <$> List.filter
        (λ s, existsb (String.eqb (compiler.Secret.Name s))
                      (yaml_types.Container.Secrets step)
              && admitsImage (compiler.Secret.Match s)
                             (yaml_types.Container.Image step)
              && (negb (compiler.Secret.PluginOnly s)
                  || (length (yaml_types.Container.Commands step) =? 0)%nat))
        (compiler.secrets c).

Definition compileStep (c : compiler.Compiler) (step : yaml_types.Container)
    : backend_types.Step :=
  {| backend_types.Step.Alias := yaml_types.Container.Name step;
     backend_types.Step.UUID :=
       compiler.prefix c +:+ "_" +:+ yaml_types.Container.Name step;
     backend_types.Step.Image := yaml_types.Container.Image step;
     backend_types.Step.Commands := yaml_types.Container.Commands step;
     backend_types.Step.Environment := compiler.env c;
     backend_types.Step.Secrets := injected c step |}.

(** All steps in one stage; no stage for a workflow without steps. *)
Definition compile (c : compiler.Compiler) (w : yaml_types.Workflow)
    : string + backend_types.Config :=
  match yaml_types.Workflow.Steps w with
  | [] => inr {| backend_types.Config.Stages := [] |}
  | steps =>
      inr {| backend_types.Config.Stages :=
               [ {| backend_types.Stage.Steps := compileStep c <$> steps |} ] |}
  end.

Fixpoint insertByName (y : forge_types.FileMeta)
    (ys : list forge_types.FileMeta) : list forge_types.FileMeta :=
  match ys with
  | [] => [y]
  | z :: rest =>
      if String.leb (forge_types.FileMeta.Name y) (forge_types.FileMeta.Name z)
      then y :: ys
      else z :: insertByName y rest
  end.

Definition sortByName (ys : list forge_types.FileMeta)
    : list forge_types.FileMeta :=
  foldr insertByName [] ys.

Definition environOf (md : metadata.Metadata) : gmap string string :=
  {[ "CI_PIPELINE_EVENT" :=
       model.Pipeline.Event (metadata.Metadata.Curr md);
     "CI_WORKFLOW_NAME" :=
       model.Workflow.Name (metadata.Metadata.Workflow md) ]}.

Definition settings : server.Pipeline :=
  {| server.Pipeline.Limits :=
       {| server.Limits.MemSwapLimit := 0; server.Limits.MemLimit := 0;
          server.Limits.ShmSize := 0; server.Limits.CPUQuota := 0;
          server.Limits.CPUShares := 0; server.Limits.CPUSet := "" |};
     server.Pipeline.Volumes := [];
     server.Pipeline.Networks := [];
     server.Pipeline.Privileged := ["plugins/docker"];
     server.Pipeline.DefaultCloneImage := "woodpeckerci/plugin-git";
     server.Pipeline.AuthenticatePublicRepos := false |}.

Definition packages : Packages :=
  {| Packages.SortByName := sortByName;
     Packages.matrix_ParseString := parseMatrix;
     Packages.Environ := environOf;
     Packages.EnvVarSubst := λ text _, inr text;
     Packages.yaml_ParseString := parse;
     Packages.Lint := lint;
     Packages.Compile := compile;
     Packages.Match := eventListed;
     Packages.admits := admitsImage;
     Packages.ulid_Make := λ _, "01ARZ3NDEKTSV4RRFFQ69G5FAV";
     Packages.Config := settings |}.

Definition file (name text : string) : forge_types.FileMeta :=
  {| forge_types.FileMeta.Name := name; forge_types.FileMeta.Data := text |}.

Definition token : model.Secret :=
  {| model.Secret.Name := "TOKEN";
     model.Secret.Value := "s3cr3t";
     model.Secret.Images := ["plugins/docker"];
     model.Secret.PluginsOnly := true;
     model.Secret.Events := ["push"] |}.

(** A builder for the event [event] over the files [yamls]. *)
Definition builder (event : string) (yamls : list forge_types.FileMeta)
    (envs : gmap string string) : StepBuilder :=
  {| StepBuilder.Repo :=
       {| model.Repo.Link := "https://forge.example/octo/app";
          model.Repo.IsTrusted := false;
          model.Repo.IsSCMPrivate := false;
          model.Repo.NetrcOnlyTrusted := true |};
     StepBuilder.Curr :=
       {| model.Pipeline.ID := 7; model.Pipeline.Event := event |};
     StepBuilder.Last := None;
     StepBuilder.Netrc :=
       {| model.Netrc.Machine := "forge.example";
          model.Netrc.Login := "octo";
          model.Netrc.Password := "pw" |};
     StepBuilder.Secs := [token];
     StepBuilder.Regs := [];
     StepBuilder.Link := "https://ci.example";
     StepBuilder.Yamls := yamls;
     StepBuilder.Envs := envs;
     StepBuilder.Forge :=
       {| metadata.ServerForge.Name := "gitea";
          metadata.ServerForge.URL := "https://forge.example" |} |}.

End Scenario.

(** An item by its name, state and dependencies. *)
Definition itemNamed (name : string) (state : model.StatusValue)
    (dependsOn : list string) : Item :=
  {| Item.Workflow :=
       {| model.Workflow.ID := 0; model.Workflow.PipelineID := 7;
          model.Workflow.PID := 1; model.Workflow.Name := name;
          model.Workflow.State := state; model.Workflow.Environ := ∅ |};
     Item.Platform := "";
     Item.Labels := ∅;
     Item.DependsOn := dependsOn;
     Item.RunsOn := [];
     Item.Config := {| backend_types.Config.Stages := [] |} |}.

(** ** From the items to the stored pipeline *)

(** [model.Step], with the fields [SetPipelineStepsOnPipeline] writes. *)
Module model_Step.
Record t := {
  Name : string;
  UUID : string;
  PipelineID : Z;
  PID : Z;
  PPID : Z;
  State : model.StatusValue }.

(** [step.State = s] *)
Definition withState (s : model.StatusValue) (step : t) : t :=
  {| Name := Name step; UUID := UUID step; PipelineID := PipelineID step;
     PID := PID step; PPID := PPID step; State := s |}.
End model_Step.
Abbreviation model_Step := model_Step.t.

(** A workflow with its field [Children], the steps under it.  The
    builder leaves the field nil; it is kept beside the record of the
    workflow. *)
Module Stored.
Record t := {
  Workflow : model.Workflow;
  Children : list model_Step }.
End Stored.
Abbreviation Stored := Stored.t.

(** A pipeline with its field [Workflows]. *)
Module StoredPipeline.
Record t := {
  Pipeline : model.Pipeline;
  Workflows : list Stored }.
End StoredPipeline.
Abbreviation StoredPipeline := StoredPipeline.t.

(** An item and the children its workflow has so far.  The items of a
    list are distinct objects, as the items [Build] makes are. *)
Abbreviation ItemWithChildren := (Item * list model_Step)%type.

(** The first loop of [SetPipelineStepsOnPipeline]: the largest PID of a
    workflow, and no less than zero. *)
Definition maxPID (pipelineItems : list ItemWithChildren) : Z :=
  foldl (λ pidSequence (ic : ItemWithChildren),
           if (pidSequence <? model.Workflow.PID (Item.Workflow ic.1))%Z
           then model.Workflow.PID (Item.Workflow ic.1)
           else pidSequence)
        0%Z pipelineItems.

(** The step record made for [step] under [workflow]. *)
Definition newStep (pipeline : model.Pipeline) (workflow : model.Workflow)
    (pidSequence : Z) (step : backend_types.Step) : model_Step :=
  let made :=
    {| model_Step.Name := backend_types.Step.Alias step;
       model_Step.UUID := backend_types.Step.UUID step;
       model_Step.PipelineID := model.Pipeline.ID pipeline;
       model_Step.PID := pidSequence;
       model_Step.PPID := model.Workflow.PID workflow;
       model_Step.State := model.StatusPending |} in
  if String.eqb (model.Workflow.State workflow) model.StatusSkipped
  then model_Step.withState model.StatusSkipped made
  else made.

(** What the loop over the steps of a stage carries. *)
Module StageLoop.
Record t := {
  pidSequence : Z;
  gid : Z;
  Children : list model_Step }.
End StageLoop.
Abbreviation StageLoop := StageLoop.t.

(** [for _, step := range stage.Steps { ... }], with [gid] starting at
    zero; the group id is written and never read. *)
Definition stageSteps (pipeline : model.Pipeline) (workflow : model.Workflow)
    (stage : backend_types.Stage) (pidSequence : Z)
    (children : list model_Step) : StageLoop :=
  foldl (λ (acc : StageLoop) step,
           let pidSequence := incr (StageLoop.pidSequence acc) in
           let gid := if (StageLoop.gid acc =? 0)%Z then pidSequence
                      else StageLoop.gid acc in
           {| StageLoop.pidSequence := pidSequence;
              StageLoop.gid := gid;
              StageLoop.Children :=
                StageLoop.Children acc
                ++ [newStep pipeline workflow pidSequence step] |})
        {| StageLoop.pidSequence := pidSequence;
           StageLoop.gid := 0;
           StageLoop.Children := children |}
        (backend_types.Stage.Steps stage).

(** [for _, stage := range item.Config.Stages { ... }] *)
Definition itemSteps (pipeline : model.Pipeline) (item : Item)
    (pidSequence : Z) (children : list model_Step)
    : Z * list model_Step :=
  foldl (λ (acc : Z * list model_Step) stage,
           let done :=
             stageSteps pipeline (Item.Workflow item) stage acc.1 acc.2 in
           (StageLoop.pidSequence done, StageLoop.Children done))
        (pidSequence, children)
        (backend_types.Config.Stages (Item.Config item)).

(** The second loop of [SetPipelineStepsOnPipeline]. *)
Definition attachItems (pipeline : model.Pipeline)
    (pipelineItems : list ItemWithChildren) (pidSequence : Z)
    (workflows : list Stored) : Z * list Stored :=
  foldl (λ (acc : Z * list Stored) (ic : ItemWithChildren),
           let done := itemSteps pipeline ic.1 acc.1 ic.2 in
           (done.1,
            acc.2 ++ [ {| Stored.Workflow := Item.Workflow ic.1;
                          Stored.Children := done.2 |} ]))
        (pidSequence, workflows) pipelineItems.

Definition SetPipelineStepsOnPipeline (pipeline : StoredPipeline)
    (pipelineItems : list ItemWithChildren) : StoredPipeline :=
  let pidSequence := maxPID pipelineItems in
  {| StoredPipeline.Pipeline := StoredPipeline.Pipeline pipeline;
     StoredPipeline.Workflows :=
       (attachItems (StoredPipeline.Pipeline pipeline) pipelineItems
          pidSequence (StoredPipeline.Workflows pipeline)).2 |}.

(** ** Notions the further properties are stated with *)

(** The steps of a plan, stage after stage. *)
Definition allSteps (item : Item) : list backend_types.Step :=
  concat (backend_types.Stage.Steps
            <$> backend_types.Config.Stages (Item.Config item)).

(** The state a step takes from its workflow. *)
Definition inherited (workflow : model.Workflow) : model.StatusValue :=
  if String.eqb (model.Workflow.State workflow) model.StatusSkipped
  then model.StatusSkipped
  else model.StatusPending.

(** The workflows appended for the items, each with the steps added to
    its children. *)
Definition attached (pipelineItems : list ItemWithChildren)
    (added : list (list model_Step)) : list Stored :=
  zip_with (λ (ic : ItemWithChildren) new,
              {| Stored.Workflow := Item.Workflow ic.1;
                 Stored.Children := ic.2 ++ new |})
           pipelineItems added.

(** The number of steps of the plans of the items. *)
Definition stepCount (pipelineItems : list ItemWithChildren) : nat :=
  sum_list ((λ ic : ItemWithChildren, length (allSteps ic.1))
            <$> pipelineItems).

(** The steps made for [steps], numbered after [pidSequence]. *)
Fixpoint stepsAfter (pipeline : model.Pipeline) (workflow : model.Workflow)
    (pidSequence : Z) (steps : list backend_types.Step) : list model_Step :=
  match steps with
  | [] => []
  | step :: rest =>
      newStep pipeline workflow (incr pidSequence) step
      :: stepsAfter pipeline workflow (incr pidSequence) rest
  end.

(** The steps added for each item, the counter running through. *)
Fixpoint addedAfter (pipeline : model.Pipeline)
    (pipelineItems : list ItemWithChildren) (pidSequence : Z)
    : list (list model_Step) :=
  match pipelineItems with
  | [] => []
  | ic :: rest =>
      stepsAfter pipeline (Item.Workflow ic.1) pidSequence (allSteps ic.1)
      :: addedAfter pipeline rest
           (Nat.iter (length (allSteps ic.1)) incr pidSequence)
  end.

(** The PIDs of the workflows and of the steps of a stored pipeline. *)
Definition storedPIDs (workflows : list Stored) : list Z :=
  ((λ w, model.Workflow.PID (Stored.Workflow w)) <$> workflows)
  ++ (model_Step.PID <$> concat (Stored.Children <$> workflows)).

(** The items of [Build], whose workflows have no children yet. *)
Definition fresh (items : list Item) : list ItemWithChildren :=
  (λ item, (item, [])) <$> items.

(** The name and the axis of the workflow of an item. *)
Definition slotOf (item : Item) : string * matrix.Axis :=
  (model.Workflow.Name (Item.Workflow item),
   model.Workflow.Environ (Item.Workflow item)).

(** The workflows [Build] goes through for a file: one for each axis, in
    order, under the sanitized name of the file. *)
Definition slotsOf (P : Packages) (y : forge_types.FileMeta)
    : list (string * matrix.Axis) :=
  match axesOf P y with
  | inl _ => []
  | inr axes =>
      (λ axis, (SanitizePath (forge_types.FileMeta.Name y), axis)) <$> axes
  end.

Definition slots (P : Packages) (yamls : list forge_types.FileMeta)
    : list (string * matrix.Axis) :=
  concat (slotsOf P <$> yamls).

(** [Build] reaches the file [y] with the loop state [st]. *)
Definition reaches (P : Packages) (b : StepBuilder) (y : forge_types.FileMeta)
    (st : State) : Prop :=
  ∃ ys1 ys2,
    Packages.SortByName P (StepBuilder.Yamls b) = ys1 ++ y :: ys2
    ∧ buildYamls P b ys1 initial = inr st.

(** The compiler's registry made of a registry of the store. *)
Definition registryOf (reg : model.Registry) : compiler.Registry :=
  {| compiler.Registry.Hostname := model.Registry.Address reg;
     compiler.Registry.Username := model.Registry.Username reg;
     compiler.Registry.Password := model.Registry.Password reg;
     compiler.Registry.Email := model.Registry.Email reg |}.

(** A step of a plan by its alias, and an item by the name, PID and
    state of its workflow, its dependencies and the aliases of the steps
    of its stages. *)
Definition stepNamed (alias : string) : backend_types.Step :=
  {| backend_types.Step.Alias := alias;
     backend_types.Step.UUID := "uuid-" +:+ alias;
     backend_types.Step.Image := "alpine";
     backend_types.Step.Commands := [];
     backend_types.Step.Environment := ∅;
     backend_types.Step.Secrets := [] |}.

Definition planned (name : string) (pid : Z) (state : model.StatusValue)
    (dependsOn : list string) (stages : list (list string)) : Item :=
  {| Item.Workflow :=
       {| model.Workflow.ID := 0; model.Workflow.PipelineID := 7;
          model.Workflow.PID := pid; model.Workflow.Name := name;
          model.Workflow.State := state; model.Workflow.Environ := ∅ |};
     Item.Platform := "";
     Item.Labels := ∅;
     Item.DependsOn := dependsOn;
     Item.RunsOn := [];
     Item.Config :=
       {| backend_types.Config.Stages :=
            (λ aliases, {| backend_types.Stage.Steps := stepNamed <$> aliases |})
            <$> stages |} |}.

(** A pipeline without workflows. *)
Definition bare (pipeline : model.Pipeline) : StoredPipeline :=
  {| StoredPipeline.Pipeline := pipeline; StoredPipeline.Workflows := [] |}.

(** The turn of [Build] for an axis fails with [err]: in the
    substitution, the parser, the linter, the when-filter or the
    compiler. *)
Definition turnFails (P : Packages) (b : StepBuilder)
    (y : forge_types.FileMeta) (axis : matrix.Axis) (st : State)
    (err : error) : Prop :=
  let environ :=
    substEnviron P b (newWorkflow b y axis (State.pidSequence st)) axis in
  let trusted := model.Repo.IsTrusted (StepBuilder.Repo b) in
  (∃ e, Packages.EnvVarSubst P (forge_types.FileMeta.Data y) environ = inl e
        ∧ err = Upstream e)
  ∨ (∃ substituted e,
       Packages.EnvVarSubst P (forge_types.FileMeta.Data y) environ
       = inr substituted
       ∧ Packages.yaml_ParseString P substituted = inl e
       ∧ err = PipelineParseError e)
  ∨ (∃ substituted parsed e,
       Packages.EnvVarSubst P (forge_types.FileMeta.Data y) environ
       = inr substituted
       ∧ Packages.yaml_ParseString P substituted = inr parsed
       ∧ Packages.Lint P trusted parsed = Some e
       ∧ err = PipelineParseError e)
  ∨ (∃ parsed m e,
       parsesTo P b y axis st parsed
       ∧ yaml_types.Workflow.When parsed (metadataAt b y axis st) true
         = (m, Some e)
       ∧ err = Upstream e)
  ∨ (∃ parsed m e,
       parsesTo P b y axis st parsed
       ∧ yaml_types.Workflow.When parsed (metadataAt b y axis st) true
         = (m, None)
       ∧ planAt P b y axis st parsed = inl e
       ∧ err = Upstream e).

(** The forge of the scenarios, with a matrix parser, a substitution and
    a compiler that can fail. *)
Module Strict.

Definition broken_matrix : string := "matrix: {os: [linux".
Definition unbound : string :=
  "steps: [{name: build, image: ${IMAGE}, commands: [echo hi]}]".

Definition parseMatrix (text : string) : string + list matrix.Axis :=
  if String.eqb text broken_matrix
  then inl "yaml: did not find expected node content"
  else Scenario.parseMatrix text.

Definition subst (text : string) (environ : gmap string string)
    : string + string :=
  if String.eqb text unbound
  then match environ !! "IMAGE" with
       | Some _ => inr Scenario.plain
       | None => inl "variable not set: IMAGE"
       end
  else inr text.

(** A step may only ask for secrets the compiler has. *)
Definition compile (c : compiler.Compiler) (w : yaml_types.Workflow)
    : string + backend_types.Config :=
  if forallb
       (λ step,
          forallb (λ name,
                     existsb (λ s, String.eqb (compiler.Secret.Name s) name)
                             (compiler.secrets c))
                  (yaml_types.Container.Secrets step))
       (yaml_types.Workflow.Steps w)
  then Scenario.compile c w
  else inl "secret not found".

Definition packages : Packages :=
  {| Packages.SortByName := Scenario.sortByName;
     Packages.matrix_ParseString := parseMatrix;
     Packages.Environ := Scenario.environOf;
     Packages.EnvVarSubst := subst;
     Packages.yaml_ParseString := Scenario.parse;
     Packages.Lint := Scenario.lint;
     Packages.Compile := compile;
     Packages.Match := Scenario.eventListed;
     Packages.admits := Scenario.admitsImage;
     Packages.ulid_Make := λ _, "01ARZ3NDEKTSV4RRFFQ69G5FAV";
     Packages.Config := Scenario.settings |}.

End Strict.

(** The forge of the scenarios, with a compiler that checks the
    when-filter of the workflow again, against the metadata it was given,
    and lowers no step of a workflow the filter misses. *)
Module Rechecking.

Definition compile (c : compiler.Compiler) (w : yaml_types.Workflow)
    : string + backend_types.Config :=
  match compiler.metadata c with
  | Some md =>
      if (yaml_types.Workflow.When w md true).1
      then Scenario.compile c w
      else inr {| backend_types.Config.Stages := [] |}
  | None => Scenario.compile c w
  end.

Definition packages : Packages :=
  {| Packages.SortByName := Scenario.sortByName;
     Packages.matrix_ParseString := Scenario.parseMatrix;
     Packages.Environ := Scenario.environOf;
     Packages.EnvVarSubst := λ text _, inr text;
     Packages.yaml_ParseString := Scenario.parse;
     Packages.Lint := Scenario.lint;
     Packages.Compile := compile;
     Packages.Match := Scenario.eventListed;
     Packages.admits := Scenario.admitsImage;
     Packages.ulid_Make := λ _, "01ARZ3NDEKTSV4RRFFQ69G5FAV";
     Packages.Config := Scenario.settings |}.

End Rechecking.

(** * Properties *)

(** ** Sanity checks *)

Example SanitizePath_build : SanitizePath ".woodpecker/build.yml" = "build".
Proof. vm_compute. reflexivity. Qed.

Example SanitizePath_hidden : SanitizePath ".woodpecker.yaml" = "woodpecker".
Proof. vm_compute. reflexivity. Qed.

Example SanitizePath_dir : SanitizePath "ci/lint.yaml/" = "lint".
Proof. vm_compute. reflexivity. Qed.

Example SanitizePath_empty : SanitizePath "" = "".
Proof. vm_compute. reflexivity. Qed.

Example SanitizePath_root : SanitizePath "//" = "/".
Proof. vm_compute. reflexivity. Qed.

Example filterItems_nil : filterItemsWithMissingDependencies [] = [].
Proof. reflexivity. Qed.

(** Two workflows of which one needs a third that does not exist, and the
    other the first: both go. *)
Example filterItems_transitive :
  filterItemsWithMissingDependencies
    [itemNamed "a" model.StatusPending ["b"];
     itemNamed "c" model.StatusPending ["a"]] = [].
Proof. vm_compute. reflexivity. Qed.

(** One file, no matrix, one step: one item with the PID 1. *)
Example Build_single :
  sum_map id PIDs
    (Build Scenario.packages
       (Scenario.builder "push"
          [Scenario.file ".woodpecker/a.yml" Scenario.plain] ∅))
  = inr [1%Z].
Proof. vm_compute. reflexivity. Qed.

(** A matrix of two axes: two items, with the PIDs 1 and 2. *)
Example Build_matrix :
  sum_map id PIDs
    (Build Scenario.packages
       (Scenario.builder "push"
          [Scenario.file "m.yml" Scenario.two_by_one] ∅))
  = inr [1%Z; 2%Z].
Proof. vm_compute. reflexivity. Qed.

(** A when-constraint that cannot be evaluated. *)
Example Build_bad_when :
  Build Scenario.packages
    (Scenario.builder "push" [Scenario.file "a.yml" Scenario.bad_when] ∅)
  = inl (Upstream "could not evaluate the when expression").
Proof. vm_compute. reflexivity. Qed.

(** A skipped workflow without steps is dropped with its empty plan. *)
Example Build_empty_plan :
  sum_map id (fmap (λ item, model.Workflow.Name (Item.Workflow item)))
    (Build Scenario.packages
       (Scenario.builder "pull_request"
          [Scenario.file "a.yml" Scenario.on_push_empty;
           Scenario.file "b.yml" Scenario.plain] ∅))
  = inr ["b"].
Proof. vm_compute. reflexivity. Qed.

(** ** Name sanitization *)

Section Sanitize.

Import Path.

Local Abbreviation slash := ("/"%char).

Lemma IsPathSeparator_true c : IsPathSeparator c = true ↔ c = slash.
Proof. unfold IsPathSeparator. apply Ascii.eqb_eq. Qed.

Lemma takeWhile_all p l : (∀ c, c ∈ l → p c = true) → takeWhile p l = l.
Proof.
  induction l as [|c l IH]; intros H; simpl; [done|].
  rewrite (H c) by left. f_equal. apply IH. intros d Hd. apply H. by right.
Qed.

Lemma takeWhile_sat p l c : c ∈ takeWhile p l → p c = true.
Proof.
  induction l as [|d l IH]; simpl; [by intros ?%elem_of_nil|].
  destruct (p d) eqn:Hd; [|by intros ?%elem_of_nil].
  intros [->|?]%elem_of_cons; auto.
Qed.

Lemma lastElement_no_slash l : slash ∉ lastElement l.
Proof.
  unfold lastElement. rewrite elem_of_reverse. intros H%takeWhile_sat.
  by vm_compute in H.
Qed.

Lemma not_sep_of_no_slash (l : list ascii) c :
  slash ∉ l → c ∈ l → negb (IsPathSeparator c) = true.
Proof.
  intros Hno Hc. destruct (IsPathSeparator c) eqn:E; [|done].
  apply IsPathSeparator_true in E. by subst.
Qed.

Lemma Base_no_slash s : s ≠ [] → slash ∉ s → Base s = s.
Proof.
  intros Hne Hno.
  assert (Hstrip : stripTrailingSlashes s = s).
  { unfold stripTrailingSlashes.
    destruct (reverse s) as [|c r] eqn:Hr.
    - apply (f_equal reverse) in Hr. rewrite reverse_involutive in Hr.
      by subst.
    - cbn [dropWhile]. assert (Hc : c ∈ s).
      { apply elem_of_reverse. rewrite Hr. by left. }
      apply (not_sep_of_no_slash _ _ Hno) in Hc.
      destruct (IsPathSeparator c); [done|].
      rewrite <- Hr. apply reverse_involutive. }
  assert (Hlast : lastElement s = s).
  { unfold lastElement. rewrite takeWhile_all.
    - apply reverse_involutive.
    - intros c Hc. rewrite elem_of_reverse in Hc.
      exact (not_sep_of_no_slash s c Hno Hc). }
  unfold Base. destruct s as [|c s]; [done|].
  rewrite Hstrip, Hlast. done.
Qed.

(** [Base] returns a single dot, a single slash, or a non-empty element
    without a slash. *)
Lemma Base_shape p :
  Base p = ["."%char] ∨ Base p = [slash] ∨ (Base p ≠ [] ∧ slash ∉ Base p).
Proof.
  unfold Base. destruct p as [|c p]; [by left|].
  destruct (lastElement (stripTrailingSlashes (c :: p))) as [|d l] eqn:E.
  - right. by left.
  - right. right. split; [done|]. rewrite <- E. apply lastElement_no_slash.
Qed.

Lemma TrimSuffix_no_slash s suf : slash ∉ s → slash ∉ TrimSuffix s suf.
Proof.
  unfold TrimSuffix. destruct (HasSuffix s suf); [|done].
  intros Hno Hin. apply Hno. by apply (subseteq_take _ _ _ Hin).
Qed.

Lemma TrimPrefix_no_slash s pre : slash ∉ s → slash ∉ TrimPrefix s pre.
Proof.
  unfold TrimPrefix. destruct (HasPrefix s pre); [|done].
  intros Hno Hin. apply Hno. by apply (subseteq_drop _ _ _ Hin).
Qed.

Lemma TrimSuffix_length s suf :
  (length (TrimSuffix s suf) ≤ length s)%nat.
Proof.
  unfold TrimSuffix. destruct (HasSuffix s suf); [|done].
  rewrite length_take. lia.
Qed.

Lemma TrimPrefix_length s pre :
  (length (TrimPrefix s pre) ≤ length s)%nat.
Proof.
  unfold TrimPrefix. destruct (HasPrefix s pre); [|done].
  rewrite length_drop. lia.
Qed.

Lemma TrimSuffix_shrinks s suf :
  HasSuffix s suf = true → suf ≠ [] →
  (length (TrimSuffix s suf) < length s)%nat.
Proof.
  unfold TrimSuffix. intros H Hne. rewrite H.
  unfold HasSuffix in H. apply andb_true_iff in H as [Hlen%Nat.leb_le _].
  rewrite length_take. destruct suf; [done|]. simpl in *. lia.
Qed.

Lemma TrimPrefix_shrinks s pre :
  HasPrefix s pre = true → pre ≠ [] →
  (length (TrimPrefix s pre) < length s)%nat.
Proof.
  unfold TrimPrefix. intros H Hne. rewrite H.
  unfold HasPrefix in H. apply andb_true_iff in H as [Hlen%Nat.leb_le _].
  rewrite length_drop. destruct pre; [done|]. simpl in *. lia.
Qed.

(** The sanitized bytes are a single slash or hold no slash at all. *)
Lemma sanitizeBytes_shape p :
  sanitizeBytes p = [slash] ∨ slash ∉ sanitizeBytes p.
Proof.
  unfold sanitizeBytes.
  destruct (Base_shape p) as [->|[->|[_ Hno]]].
  - right. vm_compute. by intros ?%elem_of_nil.
  - left. reflexivity.
  - right. by apply TrimPrefix_no_slash, TrimSuffix_no_slash,
             TrimSuffix_no_slash.
Qed.

Lemma sanitizeBytes_fixed s :
  s = [slash] ∨ slash ∉ s →
  sanitizeBytes s = s ↔ settled s = true.
Proof.
  intros [->|Hno]; [by vm_compute|].
  destruct s as [|c s]; [by vm_compute|].
  unfold sanitizeBytes. rewrite Base_no_slash by done.
  set (r := c :: s) in *. unfold settled.
  destruct (HasSuffix r dot_yml) eqn:E1.
  { simpl. split; [|done]. intros Heq.
    pose proof (TrimSuffix_shrinks r dot_yml E1 ltac:(done)).
    pose proof (TrimSuffix_length (TrimSuffix r dot_yml) dot_yaml).
    pose proof (TrimPrefix_length
                  (TrimSuffix (TrimSuffix r dot_yml) dot_yaml) dot).
    rewrite Heq in *. lia. }
  replace (TrimSuffix r dot_yml) with r by (unfold TrimSuffix; by rewrite E1).
  destruct (HasSuffix r dot_yaml) eqn:E2.
  { simpl. split; [|done]. intros Heq.
    pose proof (TrimSuffix_shrinks r dot_yaml E2 ltac:(done)).
    pose proof (TrimPrefix_length (TrimSuffix r dot_yaml) dot).
    rewrite Heq in *. lia. }
  replace (TrimSuffix r dot_yaml) with r by (unfold TrimSuffix; by rewrite E2).
  destruct (HasPrefix r dot) eqn:E3.
  { simpl. split; [|done]. intros Heq.
    pose proof (TrimPrefix_shrinks r dot E3 ltac:(done)).
    rewrite Heq in *. lia. }
  simpl. split; [done|]. intros _. unfold TrimPrefix. by rewrite E3.
Qed.

End Sanitize.

(** C9, as written, fails: the file name [a.yml.yml] is sanitized to
    [a.yml], and that to [a]. *)
Lemma SanitizePath_not_idempotent :
  ¬ (∀ x : string, SanitizePath (SanitizePath x) = SanitizePath x).
Proof.
  intros H. specialize (H "a.yml.yml"). vm_compute in H. discriminate H.
Qed.

(** C9, amended: [SanitizePath (SanitizePath x) = SanitizePath x] holds
    exactly for the paths [x] whose sanitized name neither ends in [.yml]
    or [.yaml] nor begins with a dot. *)
Theorem SanitizePath_idempotent_iff (x : string) :
  SanitizePath (SanitizePath x) = SanitizePath x
  ↔ settled (list_ascii_of_string (SanitizePath x)) = true.
Proof.
  unfold SanitizePath. rewrite list_ascii_of_string_of_list_ascii.
  rewrite <- (sanitizeBytes_fixed _ (sanitizeBytes_shape _)).
  split; [|by intros ->].
  intros H. apply (f_equal list_ascii_of_string) in H.
  by rewrite !list_ascii_of_string_of_list_ascii in H.
Qed.

(** ** The dependency reconciler *)

(** Induction along the passes of [filterItemsWithMissingDependencies]. *)
Lemma filterItems_ind (Q : list Item → list Item → Prop) :
  (∀ items, itemsToRemove items = [] → Q items items) →
  (∀ items r rs,
     itemsToRemove items = r :: rs →
     Q (filtered items (r :: rs))
       (filterItemsWithMissingDependencies (filtered items (r :: rs))) →
     Q items (filterItemsWithMissingDependencies (filtered items (r :: rs)))) →
  ∀ items, Q items (filterItemsWithMissingDependencies items).
Proof.
  intros Hdone Hpass items.
  funelim (filterItemsWithMissingDependencies items).
  - by apply Hdone.
  - apply Hpass; [done|].
    match goal with IH : ∀ Q : _, _ |- _ => by apply IH end.
Qed.

Lemma filterItems_done items :
  itemsToRemove items = [] → filterItemsWithMissingDependencies items = items.
Proof.
  intros H. funelim (filterItemsWithMissingDependencies items); [done|].
  congruence.
Qed.

Lemma filterItems_pass items r rs :
  itemsToRemove items = r :: rs →
  filterItemsWithMissingDependencies items
  = filterItemsWithMissingDependencies (filtered items (r :: rs)).
Proof.
  intros H. funelim (filterItemsWithMissingDependencies items).
  - congruence.
  - congruence.
Qed.

Lemma itemsToRemove_nil items :
  itemsToRemove items = []
  ↔ ∀ item dep, In item items → In dep (Item.DependsOn item) →
                containsItemWithName dep items = true.
Proof.
  split.
  - intros H item dep Hi Hd.
    destruct (containsItemWithName dep items) eqn:E; [done|].
    assert (Hin : In item (itemsToRemove items)).
    { apply itemsToRemove_In. split; [done|]. by exists dep. }
    rewrite H in Hin. destruct Hin.
  - intros H. destruct (itemsToRemove items) as [|r rs] eqn:E; [done|].
    assert (Hin : In r (itemsToRemove items)) by (rewrite E; by left).
    apply itemsToRemove_In in Hin as (Hr & dep & Hd & Hc).
    rewrite (H r dep Hr Hd) in Hc. discriminate.
Qed.

Lemma filter_sublist {A} (f : A → bool) (l : list A) :
  List.filter f l `sublist_of` l.
Proof.
  induction l as [|x l IH]; simpl; [constructor|].
  destruct (f x); by constructor.
Qed.

Lemma filtered_sublist items rm : filtered items rm `sublist_of` items.
Proof. rewrite filtered_filter. apply filter_sublist. Qed.

Lemma filterItems_sublist items :
  filterItemsWithMissingDependencies items `sublist_of` items.
Proof.
  apply (filterItems_ind (λ items out, out `sublist_of` items)).
  - done.
  - intros l r rs _ IH. etrans; [exact IH|]. apply filtered_sublist.
Qed.

Lemma filterItems_In items x :
  In x (filterItemsWithMissingDependencies items) → In x items.
Proof.
  rewrite <- !list_elem_of_In. intros H.
  eapply elem_of_sublist; [exact H|]. apply filterItems_sublist.
Qed.

Lemma filterItems_settled items :
  itemsToRemove (filterItemsWithMissingDependencies items) = [].
Proof.
  apply (filterItems_ind (λ _ out, itemsToRemove out = [])); auto.
Qed.

Lemma filtered_In items rm x :
  In x (filtered items rm)
  ↔ In x items
    ∧ containsItemWithName (model.Workflow.Name (Item.Workflow x)) rm = false.
Proof.
  rewrite filtered_filter, List.filter_In, negb_true_iff. done.
Qed.

(** An item with a dependency that no item bears does not survive the
    pass, nor does any item of its name. *)
Lemma filterItems_drops_name items x dep :
  In x items → In dep (Item.DependsOn x) →
  containsItemWithName dep items = false →
  containsItemWithName (model.Workflow.Name (Item.Workflow x))
    (filterItemsWithMissingDependencies items) = false.
Proof.
  intros Hx Hdep Hmiss.
  assert (Hrm : In x (itemsToRemove items)).
  { apply itemsToRemove_In. split; [done|]. by exists dep. }
  destruct (itemsToRemove items) as [|r rs] eqn:E; [destruct Hrm|].
  rewrite (filterItems_pass _ _ _ E).
  destruct (containsItemWithName _ (filterItemsWithMissingDependencies _))
    eqn:Hc; [|done].
  apply containsItemWithName_In in Hc as (y & Hy & Hname).
  apply filterItems_In, filtered_In in Hy as [_ Hy].
  rewrite Hname in Hy.
  assert (containsItemWithName (model.Workflow.Name (Item.Workflow x))
            (r :: rs) = true) as Hc.
  { apply containsItemWithName_In. by exists x. }
  congruence.
Qed.

(** C5: after [filterItemsWithMissingDependencies] every dependency of
    every surviving item is the name of a surviving item; an item with a
    dependency that no item of the list bears is removed; and so is, to
    the fixed point, every item with a dependency that no survivor bears:
    the result is a sublist of the input that a further run leaves as it
    is. *)
Theorem dependency_closure (items : list Item) :
  let out := filterItemsWithMissingDependencies items in
  (∀ item dep, In item out → In dep (Item.DependsOn item) →
               containsItemWithName dep out = true)
  ∧ (∀ item dep, In item items → In dep (Item.DependsOn item) →
                 containsItemWithName dep items = false → ¬ In item out)
  ∧ (∀ item dep, In item items → In dep (Item.DependsOn item) →
                 containsItemWithName dep out = false → ¬ In item out)
  ∧ out `sublist_of` items
  ∧ filterItemsWithMissingDependencies out = out.
Proof.
  intros out.
  pose proof (filterItems_settled items) as Hset. fold out in Hset.
  pose proof (proj1 (itemsToRemove_nil out) Hset) as Hclosed.
  repeat split.
  - exact Hclosed.
  - intros item dep Hi Hd Hmiss Hout.
    pose proof (filterItems_drops_name items item dep Hi Hd Hmiss) as Hc.
    fold out in Hc.
    assert (containsItemWithName (model.Workflow.Name (Item.Workflow item))
              out = true) as Hc'.
    { apply containsItemWithName_In. by exists item. }
    congruence.
  - intros item dep _ Hd Hmiss Hout.
    rewrite (Hclosed item dep Hout Hd) in Hmiss. discriminate.
  - apply filterItems_sublist.
  - by apply filterItems_done.
Qed.

(** *** Names only, never states *)

Section Restate.

Variable g : Item → model.StatusValue.

Lemma containsItemWithName_restate name items :
  containsItemWithName name (restate g <$> items)
  = containsItemWithName name items.
Proof.
  induction items as [|x l IH]; [done|].
  rewrite fmap_cons. cbn [containsItemWithName]. by rewrite IH.
Qed.

Lemma missingDependencies_restate items acc item :
  missingDependencies (restate g <$> items) (restate g <$> acc) (restate g item)
  = restate g <$> missingDependencies items acc item.
Proof.
  unfold missingDependencies. simpl.
  generalize (Item.DependsOn item) as deps. intros deps. revert acc.
  induction deps as [|d deps IH]; intros acc; simpl; [done|].
  rewrite containsItemWithName_restate.
  destruct (containsItemWithName d items); simpl; [apply IH|].
  rewrite <- IH. by rewrite fmap_app.
Qed.

Lemma itemsToRemove_restate items :
  itemsToRemove (restate g <$> items) = restate g <$> itemsToRemove items.
Proof.
  unfold itemsToRemove.
  change (@nil Item) with (restate g <$> @nil Item) at 1.
  generalize (@nil Item) as acc. generalize items at 2 4 as l.
  intros l. induction l as [|x l IH]; intros acc; simpl; [done|].
  by rewrite missingDependencies_restate, IH.
Qed.

Lemma filtered_restate items rm :
  filtered (restate g <$> items) (restate g <$> rm)
  = restate g <$> filtered items rm.
Proof.
  rewrite !filtered_filter.
  induction items as [|x l IH]; [done|].
  rewrite fmap_cons. cbn [List.filter]. rewrite IH.
  rewrite containsItemWithName_restate.
  change (model.Workflow.Name (Item.Workflow (restate g x)))
    with (model.Workflow.Name (Item.Workflow x)).
  by destruct (containsItemWithName _ rm).
Qed.

Lemma filterItems_restate items :
  filterItemsWithMissingDependencies (restate g <$> items)
  = restate g <$> filterItemsWithMissingDependencies items.
Proof.
  apply (filterItems_ind (λ items out,
    filterItemsWithMissingDependencies (restate g <$> items)
    = restate g <$> out)).
  - intros l H. apply filterItems_done. by rewrite itemsToRemove_restate, H.
  - intros l r rs H IH.
    pose proof (itemsToRemove_restate l) as Hrm. rewrite H in Hrm.
    rewrite (filterItems_pass _ _ _ Hrm), <- IH. f_equal.
    apply (filtered_restate l (r :: rs)).
Qed.

End Restate.

Lemma closedNames_filtered N items :
  closedNames N items → closedNames N (filtered items (itemsToRemove items)).
Proof.
  intros Hcl item [Hi _]%filtered_In HN dep Hdep.
  destruct (Hcl item Hi HN dep Hdep) as [HNd Hc]. split; [done|].
  apply containsItemWithName_In in Hc as (j & Hj & Hname).
  apply containsItemWithName_In. exists j. split; [|done].
  apply filtered_In. split; [done|].
  destruct (containsItemWithName _ (itemsToRemove items)) eqn:E; [|done].
  apply containsItemWithName_In in E as (k & Hk & Hkname).
  apply itemsToRemove_In in Hk as (Hk & d & Hd & Hmiss).
  assert (N (model.Workflow.Name (Item.Workflow k))) as HNk by congruence.
  destruct (Hcl k Hk HNk d Hd) as [_ Hres]. congruence.
Qed.

Lemma closedNames_survive N items :
  closedNames N items →
  ∀ item, In item items → N (model.Workflow.Name (Item.Workflow item)) →
          In item (filterItemsWithMissingDependencies items).
Proof.
  apply (filterItems_ind (λ items out,
    closedNames N items →
    ∀ item, In item items → N (model.Workflow.Name (Item.Workflow item)) →
            In item out)).
  - auto.
  - intros l r rs H IH Hcl item Hi HN. rewrite <- H in *.
    apply IH; [by apply closedNames_filtered| |done].
    apply filtered_In. split; [done|].
    destruct (containsItemWithName _ (itemsToRemove l)) eqn:E; [|done].
    apply containsItemWithName_In in E as (k & Hk & Hkname).
    apply itemsToRemove_In in Hk as (Hk & d & Hd & Hmiss).
    assert (N (model.Workflow.Name (Item.Workflow k))) as HNk by congruence.
    destruct (Hcl k Hk HNk d Hd) as [_ Hres]. congruence.
Qed.

(** C10, amended: the resolver looks at names only.  Replacing the states
    of the workflows changes nothing in what is kept; an entry of
    [dependsOn] is satisfied exactly when some item of the list, whatever
    its state and be it the depending item itself, bears that name; and an
    item is kept whenever its name lies in a set of names that is closed
    under the dependencies of the items bearing them, each dependency
    being the name of an item of the list. *)
Theorem resolver_names_only (items : list Item) :
  (∀ g, filterItemsWithMissingDependencies (restate g <$> items)
        = restate g <$> filterItemsWithMissingDependencies items)
  ∧ (∀ dep, containsItemWithName dep items = true
            ↔ ∃ item, In item items
                      ∧ model.Workflow.Name (Item.Workflow item) = dep)
  ∧ (∀ N item, closedNames N items → In item items →
               N (model.Workflow.Name (Item.Workflow item)) →
               In item (filterItemsWithMissingDependencies items)).
Proof.
  split; [|split].
  - intros g. apply filterItems_restate.
  - intros dep. apply containsItemWithName_In.
  - intros N item Hcl Hi HN. by apply (closedNames_survive N).
Qed.

(** ** The traversal of [Build] *)

Section Traversal.

Variable P : Packages.
Variable b : StepBuilder.

Lemma withState_pending y axis pid :
  model.Workflow.withState model.StatusPending (newWorkflow b y axis pid)
  = newWorkflow b y axis pid.
Proof. reflexivity. Qed.

(** What one turn of the inner loop does, by the outcome of each call. *)
Lemma buildAxis_subst_error y axis st err :
  Packages.EnvVarSubst P (forge_types.FileMeta.Data y)
    (substEnviron P b (newWorkflow b y axis (State.pidSequence st)) axis)
  = inl err →
  buildAxis P b y axis st = inl (Upstream err).
Proof. unfold buildAxis. by intros ->. Qed.

Lemma buildAxis_parse_error y axis st substituted err :
  Packages.EnvVarSubst P (forge_types.FileMeta.Data y)
    (substEnviron P b (newWorkflow b y axis (State.pidSequence st)) axis)
  = inr substituted →
  Packages.yaml_ParseString P substituted = inl err →
  buildAxis P b y axis st = inl (PipelineParseError err).
Proof. unfold buildAxis. by intros -> ->. Qed.

Lemma buildAxis_lint_error y axis st substituted parsed err :
  Packages.EnvVarSubst P (forge_types.FileMeta.Data y)
    (substEnviron P b (newWorkflow b y axis (State.pidSequence st)) axis)
  = inr substituted →
  Packages.yaml_ParseString P substituted = inr parsed →
  Packages.Lint P (model.Repo.IsTrusted (StepBuilder.Repo b)) parsed
  = Some err →
  buildAxis P b y axis st = inl (PipelineParseError err).
Proof. unfold buildAxis. by intros -> -> ->. Qed.

Lemma buildAxis_when_error y axis st parsed m err :
  parsesTo P b y axis st parsed →
  yaml_types.Workflow.When parsed (metadataAt b y axis st) true
  = (m, Some err) →
  buildAxis P b y axis st = inl (Upstream err).
Proof.
  intros (s & Hs & Hp & Hl) Hw. unfold buildAxis.
  rewrite Hs, Hp, Hl. unfold metadataAt in Hw. rewrite Hw.
  by rewrite andb_false_r.
Qed.

Lemma buildAxis_compiled y axis st parsed m :
  parsesTo P b y axis st parsed →
  yaml_types.Workflow.When parsed (metadataAt b y axis st) true = (m, None) →
  buildAxis P b y axis st
  = match planAt P b y axis st parsed with
    | inl err => inl (Upstream err)
    | inr ir =>
        if (length (backend_types.Config.Stages ir) =? 0)%nat
        then inr (dropped st)
        else inr (appended st (itemAt b y axis st (stateOf m) parsed ir))
    end.
Proof.
  intros (s & Hs & Hp & Hl) Hw. unfold buildAxis.
  rewrite Hs, Hp, Hl. unfold metadataAt in Hw. rewrite Hw.
  unfold planAt, metadataAt. by destruct m.
Qed.

(** Every successful turn is of the last kind. *)
Lemma buildAxis_inr y axis st st' :
  buildAxis P b y axis st = inr st' →
  ∃ parsed m ir,
    parsesTo P b y axis st parsed
    ∧ yaml_types.Workflow.When parsed (metadataAt b y axis st) true = (m, None)
    ∧ planAt P b y axis st parsed = inr ir
    ∧ st' = if (length (backend_types.Config.Stages ir) =? 0)%nat
            then dropped st
            else appended st (itemAt b y axis st (stateOf m) parsed ir).
Proof.
  intros H.
  destruct (Packages.EnvVarSubst P (forge_types.FileMeta.Data y)
    (substEnviron P b (newWorkflow b y axis (State.pidSequence st)) axis))
    as [e|s] eqn:Hs.
  { by rewrite (buildAxis_subst_error _ _ _ _ Hs) in H. }
  destruct (Packages.yaml_ParseString P s) as [e|parsed] eqn:Hp.
  { by rewrite (buildAxis_parse_error _ _ _ _ _ Hs Hp) in H. }
  destruct (Packages.Lint P (model.Repo.IsTrusted (StepBuilder.Repo b)) parsed)
    as [e|] eqn:Hl.
  { by rewrite (buildAxis_lint_error _ _ _ _ _ _ Hs Hp Hl) in H. }
  assert (Hparsed : parsesTo P b y axis st parsed) by (by exists s).
  destruct (yaml_types.Workflow.When parsed (metadataAt b y axis st) true)
    as [m [e|]] eqn:Hw.
  { by rewrite (buildAxis_when_error _ _ _ _ _ _ Hparsed Hw) in H. }
  rewrite (buildAxis_compiled _ _ _ _ _ Hparsed Hw) in H.
  destruct (planAt P b y axis st parsed) as [e|ir] eqn:Hc; [done|].
  exists parsed, m, ir. repeat split; [done..|].
  destruct (length (backend_types.Config.Stages ir) =? 0)%nat; congruence.
Qed.

(** The loops, cut in two. *)
Lemma buildAxes_app y axes1 axes2 st :
  buildAxes P b y (axes1 ++ axes2) st
  = match buildAxes P b y axes1 st with
    | inl err => inl err
    | inr st1 => buildAxes P b y axes2 st1
    end.
Proof.
  revert st. induction axes1 as [|a l IH]; intros st; simpl; [done|].
  destruct (buildAxis P b y a st); [done|]. apply IH.
Qed.

Lemma buildYamls_app ys1 ys2 st :
  buildYamls P b (ys1 ++ ys2) st
  = match buildYamls P b ys1 st with
    | inl err => inl err
    | inr st1 => buildYamls P b ys2 st1
    end.
Proof.
  revert st. induction ys1 as [|y l IH]; intros st; simpl; [done|].
  destruct (axesOf P y); [done|].
  destruct (buildAxes P b y _ st); [done|]. apply IH.
Qed.

(** An error at a visit is the error of the whole. *)
Lemma visits_error y axis st err :
  visits P b y axis st →
  buildAxis P b y axis st = inl err →
  collect P b = inl err.
Proof.
  intros (ys1 & ys2 & axes1 & axes2 & st1 & Hys & Hst1 & Hax & Hst) Herr.
  unfold collect. rewrite Hys, buildYamls_app, Hst1. simpl.
  rewrite Hax, buildAxes_app, Hst. simpl. by rewrite Herr.
Qed.

Lemma Build_collect_error err : collect P b = inl err → Build P b = inl err.
Proof. unfold Build. by intros ->. Qed.

End Traversal.

Section Invariants.

Variable P : Packages.
Variable b : StepBuilder.

(** A property of the loop state that every turn keeps holds when the
    loops are through. *)
Lemma buildAxes_invariant (I : State → Prop) y :
  (∀ axis st st', I st → buildAxis P b y axis st = inr st' → I st') →
  ∀ axes st st', I st → buildAxes P b y axes st = inr st' → I st'.
Proof.
  intros Hstep axes. induction axes as [|a l IH]; intros st st' HI; simpl.
  - by intros [= <-].
  - destruct (buildAxis P b y a st) as [|st1] eqn:E; [done|].
    intros H. eapply IH; [|exact H]. by eapply Hstep.
Qed.

Lemma buildYamls_invariant (I : State → Prop) :
  (∀ y axis st st', I st → buildAxis P b y axis st = inr st' → I st') →
  ∀ ys st st', I st → buildYamls P b ys st = inr st' → I st'.
Proof.
  intros Hstep ys. induction ys as [|y l IH]; intros st st' HI; simpl.
  - by intros [= <-].
  - destruct (axesOf P y) as [|axes]; [done|].
    destruct (buildAxes P b y axes st) as [|st1] eqn:E; [done|].
    intros H. eapply IH; [|exact H].
    eapply buildAxes_invariant; [|exact HI|exact E]. apply Hstep.
Qed.

Lemma collect_invariant (I : State → Prop) :
  I initial →
  (∀ y axis st st', I st → buildAxis P b y axis st = inr st' → I st') →
  ∀ st, collect P b = inr st → I st.
Proof.
  intros H0 Hstep st H. by eapply buildYamls_invariant.
Qed.

(** Items are only ever appended. *)
Lemma buildAxis_prefix y axis st st' :
  buildAxis P b y axis st = inr st' →
  State.items st `prefix_of` State.items st'.
Proof.
  intros (parsed & m & ir & _ & _ & _ & ->)%buildAxis_inr.
  destruct (length _ =? 0)%nat; simpl; [done|]. by apply prefix_app_r.
Qed.

Lemma buildAxes_prefix y axes st st' :
  buildAxes P b y axes st = inr st' →
  State.items st `prefix_of` State.items st'.
Proof.
  apply (buildAxes_invariant
           (λ s, State.items st `prefix_of` State.items s)); [|done].
  intros axis s s' Hs H. etrans; [exact Hs|]. by eapply buildAxis_prefix.
Qed.

Lemma buildYamls_prefix ys st st' :
  buildYamls P b ys st = inr st' →
  State.items st `prefix_of` State.items st'.
Proof.
  apply (buildYamls_invariant
           (λ s, State.items st `prefix_of` State.items s)); [|done].
  intros y axis s s' Hs H. etrans; [exact Hs|]. by eapply buildAxis_prefix.
Qed.

(** What a visit appends stays in the list. *)
Lemma visits_item y axis st item stf :
  visits P b y axis st →
  buildAxis P b y axis st = inr (appended st item) →
  collect P b = inr stf →
  In item (State.items stf).
Proof.
  intros (ys1 & ys2 & axes1 & axes2 & st1 & Hys & Hst1 & Hax & Hst) Hturn.
  unfold collect. rewrite Hys, buildYamls_app, Hst1. simpl.
  rewrite Hax, buildAxes_app, Hst. simpl. rewrite Hturn.
  destruct (buildAxes P b y axes2 _) as [|st2] eqn:E2; [done|].
  intros Hrest. apply buildAxes_prefix in E2. apply buildYamls_prefix in Hrest.
  apply list_elem_of_In.
  eapply elem_of_prefix; [|exact Hrest].
  eapply elem_of_prefix; [|exact E2].
  simpl. apply elem_of_app. right. by left.
Qed.

Lemma collect_madeByBuild st :
  collect P b = inr st →
  ∀ item, In item (State.items st) → madeByBuild P b item.
Proof.
  apply (collect_invariant
           (λ s, ∀ item, In item (State.items s) → madeByBuild P b item)).
  - intros item [].
  - intros y axis s s' HI (parsed & m & ir & Hp & Hw & Hc & ->)%buildAxis_inr.
    destruct (length _ =? 0)%nat eqn:E; simpl; [done|].
    intros item [Hi|[<-|[]]]%in_app_iff; [by apply HI|].
    exists y, axis, s, parsed, m, ir. repeat split; try done.
    intros Hnil. rewrite Hnil in E. discriminate.
Qed.

(** The counter of identifiers counts the compilations. *)
Lemma buildAxes_drawn y axes st st' :
  buildAxes P b y axes st = inr st' →
  State.drawn st' = State.drawn st + length axes.
Proof.
  revert st. induction axes as [|a l IH]; intros st; simpl.
  - intros [= <-]. lia.
  - destruct (buildAxis P b y a st) as [|st1] eqn:E; [done|].
    intros ->%IH.
    apply buildAxis_inr in E as (parsed & m & ir & _ & _ & _ & ->).
    destruct (length _ =? 0)%nat; simpl; lia.
Qed.

Lemma axesOf_length y axes :
  axesOf P y = inr axes → length axes = matrixSize P y.
Proof.
  unfold axesOf, matrixSize.
  destruct (Packages.matrix_ParseString P _) as [|l]; [done|].
  intros [= <-]. destruct l; simpl; [done|]. done.
Qed.

Lemma buildYamls_drawn ys st st' :
  buildYamls P b ys st = inr st' →
  State.drawn st' = State.drawn st + sum_list (matrixSize P <$> ys).
Proof.
  revert st. induction ys as [|y l IH]; intros st; simpl.
  - intros [= <-]. lia.
  - destruct (axesOf P y) as [|axes] eqn:Hax; [done|].
    destruct (buildAxes P b y axes st) as [|st1] eqn:E; [done|].
    intros ->%IH. apply buildAxes_drawn in E.
    apply axesOf_length in Hax. unfold fmap in *. lia.
Qed.

(** Each compilation appends at most one item. *)
Lemma collect_items_drawn st :
  collect P b = inr st → (length (State.items st) ≤ State.drawn st)%nat.
Proof.
  apply (collect_invariant
           (λ s, (length (State.items s) ≤ State.drawn s)%nat)).
  - unfold initial. simpl. lia.
  - intros y axis s s' HI (parsed & m & ir & _ & _ & _ & ->)%buildAxis_inr.
    destruct (length _ =? 0)%nat; simpl; [lia|]. rewrite length_app. simpl. lia.
Qed.

(** The plans of the items are the plans of the run that have a stage,
    in the order of the traversal. *)
Lemma turnPlan_inr y axis st st' :
  buildAxis P b y axis st = inr st' →
  ∃ ir, turnPlan P b y axis st = [ir]
        ∧ Item.Config <$> State.items st'
          = (Item.Config <$> State.items st) ++ List.filter hasStages [ir].
Proof.
  intros (parsed & m & ir & (s & Hs & Hp & Hl) & Hw & Hc & ->)%buildAxis_inr.
  exists ir. split.
  - unfold turnPlan. by rewrite Hs, Hp, Hc.
  - unfold hasStages. cbn [List.filter].
    destruct (length _ =? 0)%nat; cbn [negb dropped appended State.items].
    + by rewrite app_nil_r.
    + by rewrite fmap_app.
Qed.

Lemma axesPlans_spec y axes st st' :
  buildAxes P b y axes st = inr st' →
  length (axesPlans P b y axes st) = length axes
  ∧ Item.Config <$> State.items st'
    = (Item.Config <$> State.items st)
      ++ List.filter hasStages (axesPlans P b y axes st).
Proof.
  revert st. induction axes as [|a l IH]; intros st; simpl.
  - intros [= <-]. by rewrite app_nil_r.
  - destruct (buildAxis P b y a st) as [|st1] eqn:E; [done|]. intros H.
    destruct (turnPlan_inr _ _ _ _ E) as (ir & -> & Hcfg).
    destruct (IH _ H) as [Hlen Hit]. split.
    + simpl. by rewrite Hlen.
    + rewrite Hit, Hcfg. cbn [app List.filter].
      destruct (hasStages ir); [|by rewrite app_nil_r].
      by rewrite <- app_assoc.
Qed.

Lemma yamlsPlans_spec ys st st' :
  buildYamls P b ys st = inr st' →
  length (yamlsPlans P b ys st) = sum_list (matrixSize P <$> ys)
  ∧ Item.Config <$> State.items st'
    = (Item.Config <$> State.items st)
      ++ List.filter hasStages (yamlsPlans P b ys st).
Proof.
  revert st. induction ys as [|y l IH]; intros st; simpl.
  - intros [= <-]. by rewrite app_nil_r.
  - destruct (axesOf P y) as [|axes] eqn:Hax; [done|].
    destruct (buildAxes P b y axes st) as [|st1] eqn:E; [done|]. intros H.
    destruct (axesPlans_spec _ _ _ _ E) as [Hlen1 Hit1].
    destruct (IH _ H) as [Hlen Hit]. split.
    + rewrite length_app, Hlen1, (axesOf_length _ _ Hax).
      unfold fmap in *. lia.
    + by rewrite Hit, Hit1, List.filter_app, <- app_assoc.
Qed.

Lemma filter_split {A} (f : A → bool) (l : list A) :
  (length (List.filter f l) + length (List.filter (λ x, negb (f x)) l))%nat
  = length l.
Proof.
  induction l as [|x l IH]; simpl; [done|].
  destruct (f x); simpl; lia.
Qed.

End Invariants.

(** ** Workflow PIDs *)

Lemma wrap_int_small z : (int_min ≤ z ≤ int_max)%Z → wrap_int z = z.
Proof.
  unfold int_min, int_max, wrap_int. intros H.
  rewrite Z.mod_small by lia. lia.
Qed.

Lemma incr_wrap_int z : incr (wrap_int z) = wrap_int (z + 1).
Proof.
  unfold incr, wrap_int. f_equal.
  replace ((z + 2 ^ 63) `mod` 2 ^ 64 - 2 ^ 63 + 1 + 2 ^ 63)%Z
    with ((z + 2 ^ 63) `mod` 2 ^ 64 + 1)%Z by lia.
  replace (z + 1 + 2 ^ 63)%Z with ((z + 2 ^ 63) + 1)%Z by lia.
  by rewrite Zplus_mod_idemp_l.
Qed.

Lemma StronglySorted_sublist {A} (R : relation A) (l k : list A) :
  l `sublist_of` k → StronglySorted R k → StronglySorted R l.
Proof.
  induction 1 as [|x l k Hs IH|x l k Hs IH]; intros Hk.
  - constructor.
  - apply StronglySorted_inv in Hk as [Hk Hx]. constructor; [by apply IH|].
    eapply Forall_forall. intros y Hy. eapply Forall_forall in Hx; [exact Hx|].
    by eapply elem_of_sublist.
  - apply StronglySorted_inv in Hk as [Hk _]. by apply IH.
Qed.

Lemma firstPIDs_sorted n : StronglySorted Z.lt (firstPIDs n).
Proof.
  unfold firstPIDs. generalize 1%nat as s. induction n as [|n IH]; intros s.
  - constructor.
  - simpl. constructor; [apply IH|].
    apply Forall_forall. intros z Hz.
    apply list_elem_of_fmap in Hz as (i & -> & Hi).
    apply list_elem_of_In, in_seq in Hi. lia.
Qed.

Section PIDs.

Variable P : Packages.
Variable b : StepBuilder.

Lemma collect_numbered st : collect P b = inr st → numbered st.
Proof.
  apply (collect_invariant P b numbered).
  - split; reflexivity.
  - intros y axis s s' [Hpid Hpids]
      (parsed & m & ir & _ & _ & _ & ->)%buildAxis_inr.
    destruct (length _ =? 0)%nat; [done|].
    unfold numbered, appended. cbn [State.items State.pidSequence].
    rewrite length_app. cbn [length].
    replace (length (State.items s) + 1)%nat
      with (S (length (State.items s))) by lia.
    split.
    + rewrite Hpid, incr_wrap_int. f_equal. lia.
    + unfold PIDs in *. rewrite fmap_app, Hpids, seq_S, fmap_app.
      f_equal. cbn. by rewrite Hpid.
Qed.

Lemma collect_PIDs st :
  collect P b = inr st →
  (Z.of_nat (length (State.items st)) ≤ int_max)%Z →
  PIDs (State.items st) = firstPIDs (length (State.items st)).
Proof.
  intros [_ Hpids]%collect_numbered Hlen. rewrite Hpids. unfold firstPIDs.
  apply list_fmap_ext. intros _ i Hi%list_elem_of_lookup_2.
  apply list_elem_of_In, in_seq in Hi.
  apply wrap_int_small. unfold int_min, int_max in *. lia.
Qed.

End PIDs.

(** C2, as written, fails: of two files, [a] asks for a workflow [b] that
    does not exist and is removed by the reconciler; [c], numbered after
    it, is returned alone, with the PID 2. *)
Lemma PIDs_not_dense : ¬ PIDsDense.
Proof.
  intros H.
  specialize (H Scenario.packages
    (Scenario.builder "push"
       [Scenario.file "c.yml" Scenario.plain;
        Scenario.file "a.yml" Scenario.needs_b] ∅) _ eq_refl).
  vm_compute in H. discriminate H.
Qed.

(** C2, amended: the items compiled by [Build], before the reconciliation
    of dependencies, carry the PIDs [1], ..., [n] in the order of the
    traversal (for fewer than [2^63] items); the items [Build] returns are
    a sublist of them, so their PIDs are strictly increasing and taken
    from [1], ..., [n], and they are [1], ..., [n] where the reconciler
    has nothing to remove. *)
Theorem PIDs_of_Build (P : Packages) (b : StepBuilder) (st : State) :
  collect P b = inr st →
  (Z.of_nat (length (State.items st)) ≤ int_max)%Z →
  PIDs (State.items st) = firstPIDs (length (State.items st))
  ∧ ∀ items, Build P b = inr items →
      items `sublist_of` State.items st
      ∧ PIDs items `sublist_of` firstPIDs (length (State.items st))
      ∧ StronglySorted Z.lt (PIDs items)
      ∧ (itemsToRemove (State.items st) = [] →
         PIDs items = firstPIDs (length items)).
Proof.
  intros Hc Hlen. pose proof (collect_PIDs P b st Hc Hlen) as Hpids.
  split; [done|]. intros items HB. unfold Build in HB. rewrite Hc in HB.
  destruct (_ && _); [done|]. injection HB as <-.
  pose proof (filterItems_sublist (State.items st)) as Hsub.
  assert (Hsub' : PIDs (filterItemsWithMissingDependencies (State.items st))
                  `sublist_of` firstPIDs (length (State.items st))).
  { rewrite <- Hpids. unfold PIDs. by apply fmap_sublist. }
  repeat split; [done..| |].
  - eapply StronglySorted_sublist; [exact Hsub'|]. apply firstPIDs_sorted.
  - intros Hnone. by rewrite (filterItems_done _ Hnone).
Qed.

(** ** The startpoint check *)

Lemma stepListContainsItemsToRun_false items :
  stepListContainsItemsToRun items = false
  ↔ ∀ item, In item items →
            model.Workflow.State (Item.Workflow item) ≠ model.StatusPending.
Proof.
  induction items as [|x l IH]; simpl.
  - split; [intros _ ? [] | done].
  - destruct (String.eqb_spec (model.Workflow.State (Item.Workflow x))
                model.StatusPending) as [Heq|Hne].
    + split; [done|]. intros H. by destruct (H x (or_introl eq_refl)).
    + rewrite IH. split.
      * intros H item [<-|Hi]; auto.
      * intros H item Hi. apply H. by right.
Qed.

Section Errors.

Variable P : Packages.
Variable b : StepBuilder.

(** The loops hand on errors of the packages, wrapped or not; they make
    none with [fmt.Errorf]. *)
Lemma buildAxis_error y axis st err :
  buildAxis P b y axis st = inl err → kindOf err ≠ KindErrorf.
Proof.
  unfold buildAxis.
  destruct (Packages.EnvVarSubst P _ _); [by intros [= <-]|].
  destruct (Packages.yaml_ParseString P _); [by intros [= <-]|].
  destruct (Packages.Lint P _ _); [by intros [= <-]|].
  destruct (yaml_types.Workflow.When _ _ _) as [m [e|]].
  - rewrite andb_false_r. by intros [= <-].
  - destruct m; simpl.
    + destruct (toInternalRepresentation _ _ _ _ _ _ _); [by intros [= <-]|].
      by destruct (length _ =? 0)%nat.
    + destruct (toInternalRepresentation _ _ _ _ _ _ _); [by intros [= <-]|].
      by destruct (length _ =? 0)%nat.
Qed.

Lemma buildAxes_error y axes st err :
  buildAxes P b y axes st = inl err → kindOf err ≠ KindErrorf.
Proof.
  revert st. induction axes as [|a l IH]; intros st; simpl; [done|].
  destruct (buildAxis P b y a st) eqn:E; [|by apply IH].
  intros [= <-]. by eapply buildAxis_error.
Qed.

Lemma buildYamls_error ys st err :
  buildYamls P b ys st = inl err → kindOf err ≠ KindErrorf.
Proof.
  revert st. induction ys as [|y l IH]; intros st; simpl; [done|].
  destruct (axesOf P y); [by intros [= <-]|].
  destruct (buildAxes P b y _ st) eqn:E; [|by apply IH].
  intros [= <-]. by eapply buildAxes_error.
Qed.

Lemma collect_error err : collect P b = inl err → kindOf err ≠ KindErrorf.
Proof. apply buildYamls_error. Qed.

End Errors.

(** C4: [Build] fails with the error "pipeline has no startpoint" exactly
    when the loops went through without error and the list the reconciler
    leaves is not empty and holds no workflow in the pending state; where
    the reconciler leaves the empty list, [Build] returns it without
    error. *)
Theorem no_startpoint (P : Packages) (b : StepBuilder) :
  (Build P b = inl (Errorf "pipeline has no startpoint")
   ↔ ∃ st, collect P b = inr st
           ∧ filterItemsWithMissingDependencies (State.items st) ≠ []
           ∧ ∀ item,
               In item (filterItemsWithMissingDependencies (State.items st)) →
               model.Workflow.State (Item.Workflow item) ≠ model.StatusPending)
  ∧ (∀ st, collect P b = inr st →
           filterItemsWithMissingDependencies (State.items st) = [] →
           Build P b = inr []).
Proof.
  split.
  - unfold Build. destruct (collect P b) as [e|st] eqn:Hc.
    + split.
      * intros [= ->]. by apply collect_error in Hc.
      * by intros (st & ? & _).
    + set (items := filterItemsWithMissingDependencies (State.items st)).
      split.
      * destruct (_ && _) eqn:E; [|done]. intros _.
        apply andb_true_iff in E as [Hlen%Nat.ltb_lt Hrun%negb_true_iff].
        exists st. split; [done|]. fold items. split.
        -- intros Hnil. rewrite Hnil in Hlen. simpl in Hlen. lia.
        -- by apply stepListContainsItemsToRun_false.
      * intros (st' & [= <-] & Hne & Hno). fold items in Hne, Hno.
        apply stepListContainsItemsToRun_false in Hno. rewrite Hno.
        destruct items; [done|]. reflexivity.
  - intros st Hc Hnil. unfold Build. by rewrite Hc, Hnil.
Qed.

(** ** The number of items *)

(** C7, as written, fails: one file without matrix, whose workflow needs
    a workflow [b] that does not exist, is compiled once and removed by
    the reconciler; no item is returned. *)
Lemma items_fewer_than_matrix : ¬ itemsCountMatrix.
Proof.
  intros H.
  specialize (H Scenario.packages
    (Scenario.builder "push" [Scenario.file "a.yml" Scenario.needs_b] ∅)
    _ eq_refl).
  vm_compute in H. discriminate H.
Qed.

(** C7, amended: where [Build] meets no error, the number of compilations
    is the sum over the files of the size of the matrix, one for a file
    without matrix; the items made are the compilations of the run whose
    plan has a stage, so their number is that sum less the number of
    empty plans of the run; the reconciler may remove items, so the
    number of items returned is at most that, and is that where the
    reconciler has nothing to remove: it is the sum where, moreover, no
    plan of the run is empty. *)
Theorem items_count (P : Packages) (b : StepBuilder) (st : State) :
  (∀ ys, Packages.SortByName P ys ≡ₚ ys) →
  collect P b = inr st →
  let total := sum_list (matrixSize P <$> StepBuilder.Yamls b) in
  State.drawn st = total
  ∧ length (compiledPlans P b) = total
  ∧ Item.Config <$> State.items st
    = List.filter hasStages (compiledPlans P b)
  ∧ (length (State.items st) + emptyPlans P b)%nat = total
  ∧ ∀ items, Build P b = inr items →
      (length items + emptyPlans P b ≤ total)%nat
      ∧ (itemsToRemove (State.items st) = [] →
         (length items + emptyPlans P b)%nat = total
         ∧ (emptyPlans P b = 0%nat → length items = total)).
Proof.
  intros Hperm Hc total.
  assert (Hdrawn : State.drawn st = total).
  { unfold collect in Hc. apply buildYamls_drawn in Hc. simpl in Hc.
    rewrite Hc. unfold total. by rewrite (Hperm (StepBuilder.Yamls b)). }
  destruct (yamlsPlans_spec P b _ _ _ Hc) as [Hlen Hcfg].
  fold (compiledPlans P b) in Hlen, Hcfg. simpl in Hcfg.
  assert (Hall : length (compiledPlans P b) = total).
  { rewrite Hlen. unfold total. by rewrite (Hperm (StepBuilder.Yamls b)). }
  assert (Hsum : (length (State.items st) + emptyPlans P b)%nat = total).
  { rewrite <- Hall, <- (filter_split hasStages (compiledPlans P b)).
    unfold emptyPlans. by rewrite <- Hcfg, length_fmap. }
  split; [done|]. split; [done|]. split; [done|]. split; [done|].
  intros items HB. unfold Build in HB. rewrite Hc in HB.
  destruct (_ && _); [done|]. injection HB as <-. split.
  - pose proof (sublist_length _ _ (filterItems_sublist (State.items st))).
    lia.
  - intros Hnone. rewrite (filterItems_done _ Hnone). split; [done|]. lia.
Qed.

(** ** Errors of the linter *)

Lemma visits_first (P : Packages) (b : StepBuilder) y ys axis axes :
  Packages.SortByName P (StepBuilder.Yamls b) = y :: ys →
  axesOf P y = inr (axis :: axes) →
  visits P b y axis initial.
Proof.
  intros Hys Hax. exists [], ys, [], axes, initial. by repeat split.
Qed.

(** C8, as written, fails: the linter rejects a step without image, and
    [Build] returns a [PipelineParseError]. *)
Lemma lint_error_is_parse_error : ¬ lintErrorDistinct.
Proof.
  intros H.
  destruct (H Scenario.packages
    (Scenario.builder "push" [Scenario.file "a.yml" Scenario.no_image] ∅)
    (Scenario.file "a.yml" Scenario.no_image) ∅ initial Scenario.no_image
    (Scenario.workflow Scenario.always [] [Scenario.imageless])
    "Invalid or missing image") as (e & HB & Hk).
  - by eapply visits_first.
  - reflexivity.
  - reflexivity.
  - reflexivity.
  - vm_compute in HB. injection HB as <-. by apply Hk.
Qed.

(** C8, amended: when the linter rejects a parsed workflow, [Build] fails
    with a [PipelineParseError] that wraps the error of the linter, the
    kind of error it also returns when the parser rejects the text. *)
Theorem lint_error_kind (P : Packages) (b : StepBuilder) y axis st substituted :
  visits P b y axis st →
  Packages.EnvVarSubst P (forge_types.FileMeta.Data y)
    (substEnviron P b (newWorkflow b y axis (State.pidSequence st)) axis)
  = inr substituted →
  (∀ parsed err,
     Packages.yaml_ParseString P substituted = inr parsed →
     Packages.Lint P (model.Repo.IsTrusted (StepBuilder.Repo b)) parsed
     = Some err →
     Build P b = inl (PipelineParseError err))
  ∧ (∀ err,
       Packages.yaml_ParseString P substituted = inl err →
       Build P b = inl (PipelineParseError err)).
Proof.
  intros Hv Hs. split.
  - intros parsed err Hp Hl. apply Build_collect_error.
    eapply visits_error; [exact Hv|]. by eapply buildAxis_lint_error.
  - intros err Hp. apply Build_collect_error.
    eapply visits_error; [exact Hv|]. by eapply buildAxis_parse_error.
Qed.

(** ** The when-filter *)

(** C3, as written, fails: on a pull request, a single workflow that runs
    on pushes only is put in the skipped state; the compiler, which checks
    the when-filter again, lowers none of its steps, and [Build] drops the
    workflow with its empty plan: it returns the empty list, without
    error. *)
Lemma skipped_not_returned : ¬ skippedRetained.
Proof.
  intros H.
  destruct (H Rechecking.packages
    (Scenario.builder "pull_request"
       [Scenario.file "a.yml" Scenario.on_push] ∅)
    (Scenario.file "a.yml" Scenario.on_push) ∅ initial
    (Scenario.workflow (Scenario.onEvent "push") [] [Scenario.echo]))
    as (items & item & HB & Hin & _).
  - by eapply visits_first.
  - by exists Scenario.on_push.
  - reflexivity.
  - vm_compute in HB. injection HB as <-. destruct Hin.
Qed.

(** C3, amended: a workflow whose when-predicate is false without error is
    put in the skipped state and compiled like any other.  When its plan
    has no stage, it is dropped without error: the turn leaves the item
    list and the PID counter as they were, and [Build] goes on.  Only when
    its plan has a stage is it appended to the item list, in the skipped
    state; it then stays in the list, and [Build] returns it when it
    returns a list and the reconciler keeps it.  No item [Build] returns
    has a plan without stages.  When the evaluation of the predicate
    returns an error, [Build] fails with that error. *)
Theorem when_filter (P : Packages) (b : StepBuilder) y axis st parsed :
  visits P b y axis st →
  parsesTo P b y axis st parsed →
  (∀ ir,
     yaml_types.Workflow.When parsed (metadataAt b y axis st) true
     = (false, None) →
     planAt P b y axis st parsed = inr ir →
     let item := itemAt b y axis st model.StatusSkipped parsed ir in
     (backend_types.Config.Stages ir = [] →
      buildAxis P b y axis st = inr (dropped st))
     ∧ (backend_types.Config.Stages ir ≠ [] →
        buildAxis P b y axis st = inr (appended st item)
        ∧ model.Workflow.State (Item.Workflow item) = model.StatusSkipped
        ∧ ∀ stf, collect P b = inr stf →
            In item (State.items stf)
            ∧ ∀ items, Build P b = inr items →
                In item (filterItemsWithMissingDependencies (State.items stf)) →
                In item items))
  ∧ (∀ items item,
       Build P b = inr items → In item items →
       backend_types.Config.Stages (Item.Config item) ≠ [])
  ∧ (∀ m err,
       yaml_types.Workflow.When parsed (metadataAt b y axis st) true
       = (m, Some err) →
       Build P b = inl (Upstream err)).
Proof.
  intros Hv Hp. split; [|split].
  - intros ir Hw Hc item.
    pose proof (buildAxis_compiled P b y axis st parsed false Hp Hw) as Hturn.
    rewrite Hc in Hturn. split.
    + intros Hnil. by rewrite Hnil in Hturn.
    + intros Hne.
      assert (Happ : buildAxis P b y axis st = inr (appended st item)).
      { destruct (backend_types.Config.Stages ir); [done|]. exact Hturn. }
      split; [done|]. split; [done|].
      intros stf Hcol. split; [by eapply visits_item|].
      intros items HB Hkept. unfold Build in HB. rewrite Hcol in HB.
      destruct (_ && _); [done|]. by injection HB as <-.
  - intros items item HB Hitem. unfold Build in HB.
    destruct (collect P b) as [|stf] eqn:Hcol; [done|].
    destruct (_ && _); [done|]. injection HB as <-.
    apply filterItems_In in Hitem.
    by destruct (collect_madeByBuild P b stf Hcol item Hitem)
      as (? & ? & ? & ? & ? & ? & _ & _ & _ & Hne & ->).
  - intros m err Hw. apply Build_collect_error.
    eapply visits_error; [exact Hv|]. by eapply buildAxis_when_error.
Qed.

(** ** Precedence of the metadata over the globals *)

Section Environment.

Variable P : Packages.

Lemma environmentVariables_union md (axis : matrix.Axis) :
  environmentVariables P md axis = axis ∪ Packages.Environ P md.
Proof.
  unfold environmentVariables.
  apply (map_fold_weak_ind
           (λ r (m : gmap string string), r = m ∪ Packages.Environ P md)).
  - by rewrite (left_id_L ∅ (∪)).
  - intros k v m r _ ->. by rewrite insert_union_l.
Qed.

Lemma addGlobals_union (envs environ : gmap string string) :
  addGlobals envs environ = environ ∪ envs.
Proof.
  unfold addGlobals.
  apply (map_fold_weak_ind
           (λ r (m : gmap string string), r = environ ∪ m)).
  - by rewrite (right_id_L ∅ (∪)).
  - intros k v m r Hk ->.
    destruct ((environ ∪ m) !! k) as [w|] eqn:E.
    + apply map_eq. intros j. rewrite !lookup_union.
      destruct (decide (k = j)) as [<-|Hne].
      * rewrite lookup_insert_eq, Hk. rewrite lookup_union, Hk in E.
        destruct (environ !! k); [reflexivity|discriminate E].
      * by rewrite lookup_insert_ne.
    + apply lookup_union_None in E as [He _]. by rewrite insert_union_r.
Qed.




End Environment.

(** *** The compiler of the design document *)






(** ** Secret scoping *)





(** ** The scenarios, run *)

Lemma insertByName_perm y ys : Scenario.insertByName y ys ≡ₚ y :: ys.
Proof.
  induction ys as [|z l IH]; simpl; [done|].
  destruct (String.leb _ _); [done|].
  rewrite IH. apply perm_swap.
Qed.

Lemma sortByName_perm ys : Scenario.sortByName ys ≡ₚ ys.
Proof.
  induction ys as [|y l IH]; simpl; [done|].
  by rewrite insertByName_perm, IH.
Qed.

(** The plugin step and the token of the scenarios: on a push the token,
    listed for pushes and for the image of the step, is in the
    environment of the step; on a pull request it is not, no more than in
    the environment of a step of another image that runs commands. *)
Example token_plugin_push :
  sum_map id
    (fmap (λ item, (λ step, backend_types.Step.Environment step !! "TOKEN")
                   <$> allSteps item))
    (Build (specified Scenario.packages)
       (Scenario.builder "push" [Scenario.file "a.yml" Scenario.plugin] ∅))
  = inr [[Some "s3cr3t"]].
Proof. vm_compute. reflexivity. Qed.

Example token_plugin_pull_request :
  sum_map id
    (fmap (λ item, (λ step, backend_types.Step.Environment step !! "TOKEN")
                   <$> allSteps item))
    (Build (specified Scenario.packages)
       (Scenario.builder "pull_request"
          [Scenario.file "a.yml" Scenario.plugin] ∅))
  = inr [[None]].
Proof. vm_compute. reflexivity. Qed.

Example token_other_image :
  sum_map id
    (fmap (λ item, (λ step, backend_types.Step.Environment step !! "TOKEN")
                   <$> allSteps item))
    (Build (specified Scenario.packages)
       (Scenario.builder "push" [Scenario.file "a.yml" Scenario.plain] ∅))
  = inr [[None]].
Proof. vm_compute. reflexivity. Qed.


(** Three files; the reconciler removes [a], numbered 1. *)
Lemma PIDs_of_Build_witness :
  ∃ st,
    collect Scenario.packages
      (Scenario.builder "push"
         [Scenario.file "c.yml" Scenario.plain;
          Scenario.file "a.yml" Scenario.needs_b;
          Scenario.file "d.yml" Scenario.plain] ∅) = inr st
    ∧ (Z.of_nat (length (State.items st)) ≤ int_max)%Z
    ∧ PIDs (State.items st) = [1; 2; 3]%Z
    ∧ ∃ items,
        Build Scenario.packages
          (Scenario.builder "push"
             [Scenario.file "c.yml" Scenario.plain;
              Scenario.file "a.yml" Scenario.needs_b;
              Scenario.file "d.yml" Scenario.plain] ∅) = inr items
        ∧ PIDs items = [2; 3]%Z
        ∧ StronglySorted Z.lt (PIDs items).
Proof.
  eexists. split; [vm_compute; reflexivity|].
  split; [vm_compute; discriminate|].
  split; [vm_compute; reflexivity|].
  eexists. split; [vm_compute; reflexivity|].
  split; [vm_compute; reflexivity|].
  refine (proj1 (proj2 (proj2 (proj2
    (PIDs_of_Build Scenario.packages
       (Scenario.builder "push"
          [Scenario.file "c.yml" Scenario.plain;
           Scenario.file "a.yml" Scenario.needs_b;
           Scenario.file "d.yml" Scenario.plain] ∅) _ _ _) _ _)))).
  - vm_compute. reflexivity.
  - vm_compute. discriminate.
  - vm_compute. reflexivity.
Defined.

(** A pull request; [a] runs on pushes only: the compiler lowers none of
    its steps and [a] is dropped; [b] is returned alone, with the PID
    1. *)
Lemma when_filter_witness :
  let b := Scenario.builder "pull_request"
             [Scenario.file "a.yml" Scenario.on_push;
              Scenario.file "b.yml" Scenario.plain] ∅ in
  let y := Scenario.file "a.yml" Scenario.on_push in
  let parsed := Scenario.workflow (Scenario.onEvent "push") []
                  [Scenario.echo] in
  visits Rechecking.packages b y ∅ initial
  ∧ parsesTo Rechecking.packages b y ∅ initial parsed
  ∧ yaml_types.Workflow.When parsed (metadataAt b y ∅ initial) true
    = (false, None)
  ∧ planAt Rechecking.packages b y ∅ initial parsed
    = inr {| backend_types.Config.Stages := [] |}
  ∧ buildAxis Rechecking.packages b y ∅ initial = inr (dropped initial)
  ∧ sum_map id
      (fmap (λ item, (model.Workflow.Name (Item.Workflow item),
                      model.Workflow.PID (Item.Workflow item))))
      (Build Rechecking.packages b)
    = inr [("b", 1%Z)].
Proof.
  intros b y parsed.
  assert (Hv : visits Rechecking.packages b y ∅ initial).
  { by eapply visits_first. }
  assert (Hp : parsesTo Rechecking.packages b y ∅ initial parsed).
  { by exists Scenario.on_push. }
  split; [exact Hv|]. split; [exact Hp|].
  split; [reflexivity|]. split; [vm_compute; reflexivity|].
  split; [|vm_compute; reflexivity].
  apply (proj1 (when_filter Rechecking.packages b y ∅ initial parsed Hv Hp)
           {| backend_types.Config.Stages := [] |}).
  - reflexivity.
  - vm_compute. reflexivity.
  - reflexivity.
Defined.

(** A pull request and a single workflow for pushes: no startpoint. *)
Lemma no_startpoint_witness :
  Build Scenario.packages
    (Scenario.builder "pull_request"
       [Scenario.file "a.yml" Scenario.on_push] ∅)
  = inl (Errorf "pipeline has no startpoint")
  ∧ Build Scenario.packages
      (Scenario.builder "push"
         [Scenario.file "c.yml" Scenario.needs_a;
          Scenario.file "a.yml" Scenario.needs_b] ∅)
    = inr [].
Proof.
  split.
  - apply (proj1 (no_startpoint Scenario.packages _)).
    eexists. split; [vm_compute; reflexivity|]. split.
    + vm_compute. discriminate.
    + intros item Hin. vm_compute in Hin. destruct Hin as [<-|[]].
      vm_compute. discriminate.
  - eapply (proj2 (no_startpoint Scenario.packages _)).
    + vm_compute. reflexivity.
    + vm_compute. reflexivity.
Defined.

Lemma dependency_closure_witness :
  let items := [itemNamed "a" model.StatusPending ["b"];
                itemNamed "c" model.StatusPending ["a"];
                itemNamed "d" model.StatusPending []] in
  filterItemsWithMissingDependencies items
  = [itemNamed "d" model.StatusPending []]
  ∧ ¬ In (itemNamed "c" model.StatusPending ["a"])
         (filterItemsWithMissingDependencies items).
Proof.
  intros items. split; [vm_compute; reflexivity|].
  refine (proj1 (proj2 (proj2 (dependency_closure items))) _ "a" _ _ _).
  - right. left. reflexivity.
  - left. reflexivity.
  - vm_compute. reflexivity.
Defined.


(** A matrix of two axes, a file without steps and a file without
    matrix: four compilations, one empty plan, three items.  Without the
    file without steps: three compilations, three items. *)
Lemma items_count_witness :
  let b := Scenario.builder "push"
             [Scenario.file "m.yml" Scenario.two_by_one;
              Scenario.file "e.yml" Scenario.no_steps;
              Scenario.file "a.yml" Scenario.plain] ∅ in
  let b' := Scenario.builder "push"
              [Scenario.file "m.yml" Scenario.two_by_one;
               Scenario.file "a.yml" Scenario.plain] ∅ in
  (∃ st, collect Scenario.packages b = inr st
         ∧ State.drawn st = 4%nat
         ∧ length (compiledPlans Scenario.packages b) = 4%nat
         ∧ emptyPlans Scenario.packages b = 1%nat
         ∧ itemsToRemove (State.items st) = []
         ∧ ∃ items, Build Scenario.packages b = inr items
                    ∧ (length items + 1)%nat = 4%nat)
  ∧ (∃ st, collect Scenario.packages b' = inr st
           ∧ emptyPlans Scenario.packages b' = 0%nat
           ∧ itemsToRemove (State.items st) = []
           ∧ ∃ items, Build Scenario.packages b' = inr items
                      ∧ length items = 3%nat).
Proof.
  intros b b'. split.
  - assert (Hc : ∃ st, collect Scenario.packages b = inr st
                       ∧ itemsToRemove (State.items st) = []).
    { eexists. split; vm_compute; reflexivity. }
    destruct Hc as (st & Hc & Hnone). exists st.
    destruct (items_count Scenario.packages b st sortByName_perm Hc)
      as (Hdrawn & Hall & _ & _ & Hitems).
    assert (HB : ∃ items, Build Scenario.packages b = inr items).
    { eexists. vm_compute. reflexivity. }
    destruct HB as (items & HB).
    destruct (Hitems items HB) as [_ Hexact].
    destruct (Hexact Hnone) as [Hsum _].
    split; [exact Hc|]. split; [exact Hdrawn|]. split; [exact Hall|].
    split; [vm_compute; reflexivity|]. split; [exact Hnone|].
    exists items. split; [exact HB|]. exact Hsum.
  - assert (Hc : ∃ st, collect Scenario.packages b' = inr st
                       ∧ itemsToRemove (State.items st) = []).
    { eexists. split; vm_compute; reflexivity. }
    destruct Hc as (st & Hc & Hnone). exists st.
    destruct (items_count Scenario.packages b' st sortByName_perm Hc)
      as (_ & _ & _ & _ & Hitems).
    assert (HB : ∃ items, Build Scenario.packages b' = inr items).
    { eexists. vm_compute. reflexivity. }
    destruct HB as (items & HB).
    destruct (Hitems items HB) as [_ Hexact].
    destruct (Hexact Hnone) as [_ Hfull].
    assert (He : emptyPlans Scenario.packages b' = 0%nat).
    { vm_compute. reflexivity. }
    split; [exact Hc|]. split; [exact He|]. split; [exact Hnone|].
    exists items. split; [exact HB|]. exact (Hfull He).
Defined.

(** The linter and the parser, each rejecting a file. *)
Lemma lint_error_kind_witness :
  Build Scenario.packages
    (Scenario.builder "push" [Scenario.file "a.yml" Scenario.no_image] ∅)
  = inl (PipelineParseError "Invalid or missing image")
  ∧ Build Scenario.packages
      (Scenario.builder "push" [Scenario.file "a.yml" "steps: ["] ∅)
    = inl (PipelineParseError "yaml: unmarshal errors").
Proof.
  split.
  - refine (proj1 (lint_error_kind Scenario.packages _
                     (Scenario.file "a.yml" Scenario.no_image) ∅ initial
                     Scenario.no_image _ _)
                  (Scenario.workflow Scenario.always [] [Scenario.imageless])
                  _ _ _).
    + by eapply visits_first.
    + reflexivity.
    + reflexivity.
    + reflexivity.
  - refine (proj2 (lint_error_kind Scenario.packages _
                     (Scenario.file "a.yml" "steps: [") ∅ initial
                     "steps: [" _ _) _ _).
    + by eapply visits_first.
    + reflexivity.
    + reflexivity.
Defined.

Lemma SanitizePath_idempotent_witness :
  SanitizePath (SanitizePath ".woodpecker/build.yml")
  = SanitizePath ".woodpecker/build.yml"
  ∧ settled (list_ascii_of_string (SanitizePath "a.yml.yml")) = false.
Proof.
  split.
  - apply (proj2 (SanitizePath_idempotent_iff ".woodpecker/build.yml")).
    vm_compute. reflexivity.
  - vm_compute. reflexivity.
Defined.

(** C10, as written, fails: [a] depends on the skipped [s] alone, and is
    removed once [s], which needs a workflow that does not exist, is. *)
Lemma dependant_of_skipped_removed : ¬ keepsSelfAndSkippedDependants.
Proof.
  intros H.
  specialize (H [itemNamed "s" model.StatusSkipped ["m"];
                 itemNamed "a" model.StatusPending ["s"]]
                (itemNamed "a" model.StatusPending ["s"])).
  vm_compute in H. apply H.
  - right. left. reflexivity.
  - intros dep [<-|[]]. right.
    exists (itemNamed "s" model.StatusSkipped ["m"]).
    split; [left|]; done.
Qed.

(** [a] depends on the skipped [s], [c] on itself: all three are kept. *)
Lemma resolver_names_only_witness :
  let items := [itemNamed "s" model.StatusSkipped [];
                itemNamed "a" model.StatusPending ["s"];
                itemNamed "c" model.StatusPending ["c"]] in
  closedNames (λ name, name = "s" ∨ name = "a" ∨ name = "c") items
  ∧ In (itemNamed "a" model.StatusPending ["s"])
       (filterItemsWithMissingDependencies items)
  ∧ In (itemNamed "c" model.StatusPending ["c"])
       (filterItemsWithMissingDependencies items).
Proof.
  intros items.
  assert (Hcl : closedNames (λ name, name = "s" ∨ name = "a" ∨ name = "c")
                  items).
  { intros item [<-|[<-|[<-|[]]]] _ dep; simpl.
    - intros [].
    - intros [<-|[]]. split; [by left|reflexivity].
    - intros [<-|[]]. split; [by right; right|reflexivity]. }
  split; [exact Hcl|]. split.
  - refine (proj2 (proj2 (resolver_names_only items)) _ _ Hcl _ _).
    + right. left. reflexivity.
    + right. left. reflexivity.
  - refine (proj2 (proj2 (resolver_names_only items)) _ _ Hcl _ _).
    + right. right. left. reflexivity.
    + right. right. reflexivity.
Defined.

(** * Further properties *)

(** ** [SetPipelineStepsOnPipeline] *)

Lemma iter_incr (n : nat) (p : Z) :
  (int_min ≤ p)%Z → (p + Z.of_nat n ≤ int_max)%Z →
  Nat.iter n incr p = (p + Z.of_nat n)%Z.
Proof.
  induction n as [|n IH]; intros Hlo Hhi.
  - simpl. lia.
  - rewrite Nat.iter_succ, IH by lia. unfold incr.
    rewrite wrap_int_small by lia. lia.
Qed.

Lemma stepsAfter_app pipeline workflow p l1 l2 :
  stepsAfter pipeline workflow p (l1 ++ l2)
  = stepsAfter pipeline workflow p l1
    ++ stepsAfter pipeline workflow (Nat.iter (length l1) incr p) l2.
Proof.
  revert p. induction l1 as [|s l1 IH]; intros p; [done|].
  cbn [app stepsAfter length]. rewrite IH, Nat.iter_succ_r. done.
Qed.

Lemma stageLoop_spec pipeline workflow steps (acc : StageLoop) :
  let done :=
    foldl (λ (acc : StageLoop) step,
             let pidSequence := incr (StageLoop.pidSequence acc) in
             let gid := if (StageLoop.gid acc =? 0)%Z then pidSequence
                        else StageLoop.gid acc in
             {| StageLoop.pidSequence := pidSequence;
                StageLoop.gid := gid;
                StageLoop.Children :=
                  StageLoop.Children acc
                  ++ [newStep pipeline workflow pidSequence step] |})
          acc steps in
  StageLoop.pidSequence done
  = Nat.iter (length steps) incr (StageLoop.pidSequence acc)
  ∧ StageLoop.Children done
    = StageLoop.Children acc
      ++ stepsAfter pipeline workflow (StageLoop.pidSequence acc) steps.
Proof.
  revert acc. induction steps as [|s l IH]; intros acc.
  - simpl. by rewrite app_nil_r.
  - cbn [foldl]. cbv zeta in IH |- *.
    match goal with
    | |- context [foldl _ ?a l] => destruct (IH a) as [-> ->]
    end.
    cbn [StageLoop.pidSequence StageLoop.Children length]. split.
    + by rewrite Nat.iter_succ_r.
    + cbn [stepsAfter]. by rewrite <- app_assoc.
Qed.

Lemma stageSteps_spec pipeline workflow stage p children :
  StageLoop.pidSequence (stageSteps pipeline workflow stage p children)
  = Nat.iter (length (backend_types.Stage.Steps stage)) incr p
  ∧ StageLoop.Children (stageSteps pipeline workflow stage p children)
    = children
      ++ stepsAfter pipeline workflow p (backend_types.Stage.Steps stage).
Proof.
  exact (stageLoop_spec pipeline workflow (backend_types.Stage.Steps stage)
           {| StageLoop.pidSequence := p; StageLoop.gid := 0;
              StageLoop.Children := children |}).
Qed.

Lemma itemSteps_spec pipeline item p children :
  itemSteps pipeline item p children
  = (Nat.iter (length (allSteps item)) incr p,
     children ++ stepsAfter pipeline (Item.Workflow item) p (allSteps item)).
Proof.
  unfold itemSteps, allSteps. revert p children.
  induction (backend_types.Config.Stages (Item.Config item)) as [|stage l IH];
    intros p children.
  - simpl. by rewrite app_nil_r.
  - cbn [foldl fst snd].
    destruct (stageSteps_spec pipeline (Item.Workflow item) stage p children)
      as [-> ->].
    rewrite IH, fmap_cons, concat_cons, length_app, stepsAfter_app.
    rewrite Nat.add_comm, Nat.iter_add, <- app_assoc. done.
Qed.

Lemma attachItems_spec pipeline items p workflows :
  attachItems pipeline items p workflows
  = (Nat.iter (stepCount items) incr p,
     workflows ++ attached items (addedAfter pipeline items p)).
Proof.
  unfold attachItems. revert p workflows.
  induction items as [|ic l IH]; intros p workflows.
  - simpl. by rewrite app_nil_r.
  - cbn [foldl fst snd]. rewrite itemSteps_spec. cbn [fst snd].
    rewrite IH. unfold stepCount. rewrite fmap_cons.
    cbn [sum_list_with addedAfter attached zip_with].
    rewrite Nat.add_comm, Nat.iter_add, <- app_assoc. done.
Qed.

Lemma SetPipelineSteps_workflows pipeline items :
  StoredPipeline.Workflows (SetPipelineStepsOnPipeline pipeline items)
  = StoredPipeline.Workflows pipeline
    ++ attached items
         (addedAfter (StoredPipeline.Pipeline pipeline) items (maxPID items)).
Proof.
  unfold SetPipelineStepsOnPipeline. cbn [StoredPipeline.Workflows].
  by rewrite attachItems_spec.
Qed.

Lemma addedAfter_length pipeline items p :
  length (addedAfter pipeline items p) = length items.
Proof.
  revert p. induction items as [|ic l IH]; intros p; simpl; [done|].
  by rewrite IH.
Qed.

Lemma newStep_fields pipeline workflow p step :
  model_Step.Name (newStep pipeline workflow p step)
  = backend_types.Step.Alias step
  ∧ model_Step.UUID (newStep pipeline workflow p step)
    = backend_types.Step.UUID step
  ∧ model_Step.PipelineID (newStep pipeline workflow p step)
    = model.Pipeline.ID pipeline
  ∧ model_Step.PID (newStep pipeline workflow p step) = p
  ∧ model_Step.PPID (newStep pipeline workflow p step)
    = model.Workflow.PID workflow
  ∧ model_Step.State (newStep pipeline workflow p step) = inherited workflow.
Proof.
  unfold newStep, inherited.
  by destruct (String.eqb (model.Workflow.State workflow) model.StatusSkipped).
Qed.

Lemma stepsAfter_names pipeline workflow p steps :
  model_Step.Name <$> stepsAfter pipeline workflow p steps
  = backend_types.Step.Alias <$> steps
  ∧ model_Step.UUID <$> stepsAfter pipeline workflow p steps
    = backend_types.Step.UUID <$> steps.
Proof.
  revert p. induction steps as [|s l IH]; intros p; [done|].
  cbn [stepsAfter]. rewrite !fmap_cons.
  destruct (IH (incr p)) as [-> ->].
  destruct (newStep_fields pipeline workflow (incr p) s) as (-> & -> & _).
  done.
Qed.

Lemma stepsAfter_linked pipeline workflow p steps :
  Forall (λ s, model_Step.PPID s = model.Workflow.PID workflow
               ∧ model_Step.PipelineID s = model.Pipeline.ID pipeline
               ∧ model_Step.State s = inherited workflow)
         (stepsAfter pipeline workflow p steps).
Proof.
  revert p. induction steps as [|s l IH]; intros p; cbn [stepsAfter].
  - constructor.
  - constructor; [|apply IH].
    by destruct (newStep_fields pipeline workflow (incr p) s)
      as (_ & _ & -> & _ & -> & ->).
Qed.

Lemma stepsAfter_PIDs pipeline workflow p steps :
  model_Step.PID <$> stepsAfter pipeline workflow p steps
  = (λ k, Nat.iter k incr p) <$> seq 1 (length steps).
Proof.
  revert p. induction steps as [|s l IH]; intros p; [done|].
  cbn [stepsAfter length seq]. rewrite !fmap_cons, IH.
  destruct (newStep_fields pipeline workflow (incr p) s)
    as (_ & _ & _ & -> & _).
  f_equal. rewrite <- (fmap_S_seq 1), <- list_fmap_compose.
  apply list_fmap_ext. intros _ k _. simpl. by rewrite <- Nat.iter_succ_r.
Qed.

Lemma addedAfter_PIDs pipeline items p :
  model_Step.PID <$> concat (addedAfter pipeline items p)
  = (λ k, Nat.iter k incr p) <$> seq 1 (stepCount items).
Proof.
  revert p. induction items as [|ic l IH]; intros p; [done|].
  cbn [addedAfter]. rewrite concat_cons, fmap_app, stepsAfter_PIDs, IH.
  unfold stepCount. rewrite fmap_cons. cbn [sum_list_with].
  change (id (length (allSteps ic.1))) with (length (allSteps ic.1)).
  rewrite seq_app, fmap_app. f_equal.
  rewrite (Nat.add_comm 1 (length (allSteps ic.1))).
  rewrite <- (fmap_add_seq (length (allSteps ic.1)) 1), <- list_fmap_compose.
  apply list_fmap_ext. intros _ k _. simpl.
  by rewrite Nat.add_comm, Nat.iter_add.
Qed.

Lemma maxPID_from (items : list ItemWithChildren) (p : Z) :
  let m := foldl (λ pidSequence (ic : ItemWithChildren),
                    if (pidSequence <? model.Workflow.PID (Item.Workflow ic.1))%Z
                    then model.Workflow.PID (Item.Workflow ic.1)
                    else pidSequence) p items in
  (p ≤ m)%Z
  ∧ (∀ ic, In ic items → (model.Workflow.PID (Item.Workflow ic.1) ≤ m)%Z)
  ∧ (∀ B, (p ≤ B)%Z →
          (∀ ic, In ic items →
                 (model.Workflow.PID (Item.Workflow ic.1) ≤ B)%Z) →
          (m ≤ B)%Z).
Proof.
  revert p. induction items as [|ic l IH]; intros p; cbn [foldl].
  - split; [lia|]. split; [intros ? []|]. auto.
  - set (q := if (p <? _)%Z then _ else p).
    assert (Hq : (p ≤ q ∧ model.Workflow.PID (Item.Workflow ic.1) ≤ q
                  ∧ (q = p ∨ q = model.Workflow.PID (Item.Workflow ic.1)))%Z).
    { unfold q. destruct (Z.ltb_spec p (model.Workflow.PID (Item.Workflow ic.1)));
        lia. }
    destruct (IH q) as (H1 & H2 & H3). split; [lia|]. split.
    + intros jc [<-|Hj]; [lia|]. by apply H2.
    + intros B HB Hall. apply H3.
      * destruct Hq as (_ & _ & [->| ->]); [done|]. apply Hall. by left.
      * intros jc Hj. apply Hall. by right.
Qed.

Lemma maxPID_bounds (items : list ItemWithChildren) :
  (0 ≤ maxPID items)%Z
  ∧ (∀ ic, In ic items →
           (model.Workflow.PID (Item.Workflow ic.1) ≤ maxPID items)%Z)
  ∧ (∀ B, (0 ≤ B)%Z →
          (∀ ic, In ic items →
                 (model.Workflow.PID (Item.Workflow ic.1) ≤ B)%Z) →
          (maxPID items ≤ B)%Z).
Proof. apply (maxPID_from items 0). Qed.

Lemma addedAfter_Forall2 (R : ItemWithChildren → list model_Step → Prop)
    pipeline items p :
  (∀ ic q, R ic (stepsAfter pipeline (Item.Workflow ic.1) q (allSteps ic.1))) →
  Forall2 R items (addedAfter pipeline items p).
Proof.
  intros HR. revert p. induction items as [|ic l IH]; intros p; simpl.
  - constructor.
  - constructor; [apply HR|apply IH].
Qed.

Lemma attached_workflows items added :
  length added = length items →
  Stored.Workflow <$> attached items added
  = (λ ic : ItemWithChildren, Item.Workflow ic.1) <$> items.
Proof.
  revert added. induction items as [|ic l IH]; intros [|new added] Hlen;
    try done.
  unfold attached in *. cbn [zip_with]. rewrite !fmap_cons, IH; [done|].
  simpl in Hlen. lia.
Qed.

Lemma attached_fresh_children items added :
  length added = length items →
  Stored.Children <$> attached (fresh items) added = added.
Proof.
  revert added. induction items as [|item l IH]; intros [|new added] Hlen;
    try done.
  unfold attached, fresh in *. rewrite fmap_cons. cbn [zip_with].
  rewrite fmap_cons, IH; [done|]. simpl in Hlen. lia.
Qed.

(** X1: [SetPipelineStepsOnPipeline] keeps the pipeline and the workflows
    it has, and appends one workflow for each item, in order, each with
    one more child for every step of the plan of the item, stage after
    stage, under the alias and the UUID of the step. *)
Theorem steps_attached (pipeline : StoredPipeline)
    (items : list ItemWithChildren) :
  let out := SetPipelineStepsOnPipeline pipeline items in
  StoredPipeline.Pipeline out = StoredPipeline.Pipeline pipeline
  ∧ ∃ added,
      StoredPipeline.Workflows out
      = StoredPipeline.Workflows pipeline ++ attached items added
      ∧ Forall2 (λ (ic : ItemWithChildren) new,
                   model_Step.Name <$> new
                   = backend_types.Step.Alias <$> allSteps ic.1
                   ∧ model_Step.UUID <$> new
                     = backend_types.Step.UUID <$> allSteps ic.1)
                items added.
Proof.
  intros out. split; [done|].
  exists (addedAfter (StoredPipeline.Pipeline pipeline) items (maxPID items)).
  split; [apply SetPipelineSteps_workflows|].
  apply addedAfter_Forall2. intros ic q. apply stepsAfter_names.
Qed.

(** X2: every step [SetPipelineStepsOnPipeline] adds has the PID of its
    workflow as parent PID and the ID of the pipeline, and is skipped when
    its workflow is skipped, pending otherwise. *)
Theorem steps_linked (pipeline : StoredPipeline)
    (items : list ItemWithChildren) :
  ∃ added,
    StoredPipeline.Workflows (SetPipelineStepsOnPipeline pipeline items)
    = StoredPipeline.Workflows pipeline ++ attached items added
    ∧ Forall2 (λ (ic : ItemWithChildren) new,
                 Forall (λ s,
                   model_Step.PPID s = model.Workflow.PID (Item.Workflow ic.1)
                   ∧ model_Step.PipelineID s
                     = model.Pipeline.ID (StoredPipeline.Pipeline pipeline)
                   ∧ model_Step.State s = inherited (Item.Workflow ic.1)) new)
              items added.
Proof.
  exists (addedAfter (StoredPipeline.Pipeline pipeline) items (maxPID items)).
  split; [apply SetPipelineSteps_workflows|].
  apply addedAfter_Forall2. intros ic q. apply stepsAfter_linked.
Qed.

(** X3: where the counter does not overflow, the steps added by
    [SetPipelineStepsOnPipeline] are numbered, in the order of the items,
    stages and steps, with the PIDs that follow the largest PID of a
    workflow (zero when no workflow has a positive PID); so every step has
    a PID above that of every workflow. *)
Theorem steps_numbered (pipeline : StoredPipeline)
    (items : list ItemWithChildren) :
  (maxPID items + Z.of_nat (stepCount items) ≤ int_max)%Z →
  (∃ added,
     StoredPipeline.Workflows (SetPipelineStepsOnPipeline pipeline items)
     = StoredPipeline.Workflows pipeline ++ attached items added
     ∧ length added = length items
     ∧ model_Step.PID <$> concat added
       = (λ k, (maxPID items + Z.of_nat k)%Z) <$> seq 1 (stepCount items))
  ∧ (0 ≤ maxPID items)%Z
  ∧ (∀ ic, In ic items →
           (model.Workflow.PID (Item.Workflow ic.1) ≤ maxPID items)%Z)
  ∧ (∀ B, (0 ≤ B)%Z →
          (∀ ic, In ic items →
                 (model.Workflow.PID (Item.Workflow ic.1) ≤ B)%Z) →
          (maxPID items ≤ B)%Z).
Proof.
  intros Hmax. destruct (maxPID_bounds items) as (H0 & Hle & Hleast).
  split; [|done].
  exists (addedAfter (StoredPipeline.Pipeline pipeline) items (maxPID items)).
  split; [apply SetPipelineSteps_workflows|].
  split; [apply addedAfter_length|].
  rewrite addedAfter_PIDs. apply list_fmap_ext.
  intros _ k Hk%list_elem_of_lookup_2. apply list_elem_of_In, in_seq in Hk.
  apply iter_incr; unfold int_min in *; lia.
Qed.

(** X4: the items [Build] returns, stored with their steps in a pipeline
    without workflows, give workflows and steps whose PIDs are all
    different (for fewer than [2^63] items and steps). *)
Theorem stored_PIDs_distinct (P : Packages) (b : StepBuilder) (st : State)
    (items : list Item) (pipeline : StoredPipeline) :
  collect P b = inr st →
  Build P b = inr items →
  StoredPipeline.Workflows pipeline = [] →
  (Z.of_nat (length (State.items st))
   + Z.of_nat (stepCount (fresh items)) ≤ int_max)%Z →
  NoDup (storedPIDs
           (StoredPipeline.Workflows
              (SetPipelineStepsOnPipeline pipeline (fresh items)))).
Proof.
  intros Hc HB Hnil Hmax.
  assert (Hpids : PIDs (State.items st) = firstPIDs (length (State.items st))).
  { apply (collect_PIDs P b st Hc). lia. }
  unfold Build in HB. rewrite Hc in HB.
  destruct (_ && _); [done|]. injection HB as <-.
  set (items := filterItemsWithMissingDependencies (State.items st)) in *.
  assert (Hsub : PIDs items `sublist_of` firstPIDs (length (State.items st))).
  { rewrite <- Hpids. unfold PIDs. apply fmap_sublist, filterItems_sublist. }
  assert (Hin : ∀ z, z ∈ PIDs items →
                     (1 ≤ z ≤ Z.of_nat (length (State.items st)))%Z).
  { intros z Hz. eapply elem_of_sublist in Hz; [|exact Hsub].
    apply list_elem_of_fmap in Hz as (i & -> & Hi).
    apply list_elem_of_In, in_seq in Hi. lia. }
  destruct (maxPID_bounds (fresh items)) as (H0 & Hle & Hleast).
  assert (Hm : (maxPID (fresh items) ≤ Z.of_nat (length (State.items st)))%Z).
  { apply Hleast; [lia|]. intros ic Hic.
    apply list_elem_of_In, list_elem_of_fmap in Hic as (item & -> & Hitem).
    apply Hin. unfold PIDs. apply list_elem_of_fmap. by exists item. }
  rewrite SetPipelineSteps_workflows, Hnil, app_nil_l.
  set (added := addedAfter _ _ _).
  assert (Hlen : length added = length items).
  { unfold added. rewrite addedAfter_length. unfold fresh.
    by rewrite length_fmap. }
  unfold storedPIDs.
  rewrite (list_fmap_compose Stored.Workflow model.Workflow.PID).
  rewrite attached_workflows by (unfold fresh; by rewrite length_fmap).
  rewrite attached_fresh_children by done.
  unfold added. rewrite addedAfter_PIDs.
  unfold fresh at 1. rewrite <- !list_fmap_compose.
  change (model.Workflow.PID ∘ (λ ic : ItemWithChildren, Item.Workflow ic.1)
          ∘ (λ item, (item, [])) <$> items) with (PIDs items).
  apply NoDup_app. split; [|split].
  - eapply sublist_NoDup; [|exact Hsub]. unfold firstPIDs.
    apply NoDup_fmap_2; [apply _|apply NoDup_seq].
  - intros z Hz Hstep.
    assert (Hz' : (z ≤ maxPID (fresh items))%Z).
    { apply list_elem_of_fmap in Hz as (item & -> & Hitem).
      apply (Hle (item, [])), list_elem_of_In, list_elem_of_fmap.
      by exists item. }
    apply list_elem_of_fmap in Hstep as (k & -> & Hk).
    apply list_elem_of_In, in_seq in Hk.
    rewrite iter_incr in Hz'; unfold int_min in *; lia.
  - apply NoDup_fmap_2_strong; [|apply NoDup_seq].
    intros j k Hj Hk. apply list_elem_of_In, in_seq in Hj.
    apply list_elem_of_In, in_seq in Hk.
    rewrite !iter_incr; unfold int_min in *; lia.
Qed.

(** Two workflows, the second skipped, and three steps. *)
Lemma steps_attached_witness :
  ∃ added,
    StoredPipeline.Workflows
      (SetPipelineStepsOnPipeline
         (bare {| model.Pipeline.ID := 7; model.Pipeline.Event := "push" |})
         (fresh [planned "a" 1 model.StatusPending [] [["clone"]; ["build"]];
                 planned "b" 2 model.StatusSkipped [] [["test"]]]))
    = attached
        (fresh [planned "a" 1 model.StatusPending [] [["clone"]; ["build"]];
                planned "b" 2 model.StatusSkipped [] [["test"]]])
        added
    ∧ (λ new : list model_Step, model_Step.Name <$> new) <$> added
      = [["clone"; "build"]; ["test"]].
Proof.
  destruct (steps_attached
    (bare {| model.Pipeline.ID := 7; model.Pipeline.Event := "push" |})
    (fresh [planned "a" 1 model.StatusPending [] [["clone"]; ["build"]];
            planned "b" 2 model.StatusSkipped [] [["test"]]]))
    as (_ & added & Hw & Hall).
  exists added. split; [exact Hw|].
  apply Forall2_cons_inv_l in Hall as (n1 & r1 & [H1 _] & Hall & ->).
  apply Forall2_cons_inv_l in Hall as (n2 & r2 & [H2 _] & Hall & ->).
  apply Forall2_nil_inv_l in Hall as ->.
  rewrite !fmap_cons, H1, H2. reflexivity.
Defined.

Lemma steps_linked_witness :
  ∃ added,
    StoredPipeline.Workflows
      (SetPipelineStepsOnPipeline
         (bare {| model.Pipeline.ID := 7; model.Pipeline.Event := "push" |})
         (fresh [planned "a" 1 model.StatusPending [] [["clone"]; ["build"]];
                 planned "b" 2 model.StatusSkipped [] [["test"]]]))
    = attached
        (fresh [planned "a" 1 model.StatusPending [] [["clone"]; ["build"]];
                planned "b" 2 model.StatusSkipped [] [["test"]]])
        added
    ∧ Forall2 (λ state new, Forall (λ s, model_Step.State s = state) new)
              [model.StatusPending; model.StatusSkipped] added.
Proof.
  destruct (steps_linked
    (bare {| model.Pipeline.ID := 7; model.Pipeline.Event := "push" |})
    (fresh [planned "a" 1 model.StatusPending [] [["clone"]; ["build"]];
            planned "b" 2 model.StatusSkipped [] [["test"]]]))
    as (added & Hw & Hall).
  exists added. split; [exact Hw|].
  apply Forall2_cons_inv_l in Hall as (n1 & r1 & H1 & Hall & ->).
  apply Forall2_cons_inv_l in Hall as (n2 & r2 & H2 & Hall & ->).
  apply Forall2_nil_inv_l in Hall as ->.
  repeat constructor.
  - eapply Forall_impl; [exact H1|]. by intros s (_ & _ & ->).
  - eapply Forall_impl; [exact H2|]. by intros s (_ & _ & ->).
Defined.

Lemma steps_numbered_witness :
  (maxPID (fresh [planned "a" 1 model.StatusPending [] [["clone"]; ["build"]];
                  planned "b" 2 model.StatusSkipped [] [["test"]]])
   + Z.of_nat (stepCount
       (fresh [planned "a" 1 model.StatusPending [] [["clone"]; ["build"]];
               planned "b" 2 model.StatusSkipped [] [["test"]]]))
   ≤ int_max)%Z
  ∧ ∃ added,
      StoredPipeline.Workflows
        (SetPipelineStepsOnPipeline
           (bare {| model.Pipeline.ID := 7; model.Pipeline.Event := "push" |})
           (fresh [planned "a" 1 model.StatusPending [] [["clone"]; ["build"]];
                   planned "b" 2 model.StatusSkipped [] [["test"]]]))
      = attached
          (fresh [planned "a" 1 model.StatusPending [] [["clone"]; ["build"]];
                  planned "b" 2 model.StatusSkipped [] [["test"]]])
          added
      ∧ model_Step.PID <$> concat added = [3; 4; 5]%Z.
Proof.
  assert (Hmax : (maxPID
            (fresh [planned "a" 1 model.StatusPending [] [["clone"]; ["build"]];
                    planned "b" 2 model.StatusSkipped [] [["test"]]])
          + Z.of_nat (stepCount
              (fresh [planned "a" 1 model.StatusPending [] [["clone"]; ["build"]];
                      planned "b" 2 model.StatusSkipped [] [["test"]]]))
          ≤ int_max)%Z).
  { vm_compute. discriminate. }
  split; [exact Hmax|].
  destruct (steps_numbered
    (bare {| model.Pipeline.ID := 7; model.Pipeline.Event := "push" |})
    _ Hmax) as ((added & Hw & _ & Hpids) & _).
  exists added. split; [exact Hw|]. rewrite Hpids. reflexivity.
Defined.

(** The workflows [a], removed for its dependency, [c] and [p]: the PIDs
    2 and 3 for the workflows, 4 and 5 for their steps. *)
Lemma stored_PIDs_distinct_witness :
  ∃ items,
    Build Scenario.packages
      (Scenario.builder "push"
         [Scenario.file "a.yml" Scenario.needs_b;
          Scenario.file "c.yml" Scenario.plain;
          Scenario.file "p.yml" Scenario.plugin] ∅) = inr items
    ∧ storedPIDs
        (StoredPipeline.Workflows
           (SetPipelineStepsOnPipeline
              (bare {| model.Pipeline.ID := 7;
                       model.Pipeline.Event := "push" |})
              (fresh items)))
      = [2; 3; 4; 5]%Z
    ∧ NoDup (storedPIDs
               (StoredPipeline.Workflows
                  (SetPipelineStepsOnPipeline
                     (bare {| model.Pipeline.ID := 7;
                              model.Pipeline.Event := "push" |})
                     (fresh items)))).
Proof.
  eexists. split; [vm_compute; reflexivity|].
  split; [vm_compute; reflexivity|].
  eapply (stored_PIDs_distinct Scenario.packages
            (Scenario.builder "push"
               [Scenario.file "a.yml" Scenario.needs_b;
                Scenario.file "c.yml" Scenario.plain;
                Scenario.file "p.yml" Scenario.plugin] ∅)).
  - vm_compute. reflexivity.
  - vm_compute. reflexivity.
  - reflexivity.
  - vm_compute. discriminate.
Defined.

(** ** What [Build] returns *)

Section Returned.

Variable P : Packages.
Variable b : StepBuilder.

Lemma buildAxis_slot y axis st st' :
  buildAxis P b y axis st = inr st' →
  ∃ l, State.items st' = State.items st ++ l
       ∧ slotOf <$> l
         `sublist_of` [(SanitizePath (forge_types.FileMeta.Name y), axis)].
Proof.
  intros (parsed & m & ir & _ & _ & _ & ->)%buildAxis_inr.
  destruct (length _ =? 0)%nat.
  - exists []. split; [by rewrite app_nil_r|]. apply sublist_nil_l.
  - eexists [_]. split; [reflexivity|]. by destruct m.
Qed.

Lemma buildAxes_slots y axes st st' :
  buildAxes P b y axes st = inr st' →
  ∃ l, State.items st' = State.items st ++ l
       ∧ slotOf <$> l
         `sublist_of`
         (λ axis, (SanitizePath (forge_types.FileMeta.Name y), axis)) <$> axes.
Proof.
  revert st. induction axes as [|axis axes IH]; intros st; simpl.
  - intros [= <-]. exists []. split; [by rewrite app_nil_r|done].
  - destruct (buildAxis P b y axis st) as [|st1] eqn:E; [done|].
    intros (l2 & -> & Hl2)%IH.
    apply buildAxis_slot in E as (l1 & -> & Hl1).
    exists (l1 ++ l2). split; [by rewrite app_assoc|].
    rewrite fmap_app.
    change (?x :: ?l) with ([x] ++ l). by apply sublist_app.
Qed.

Lemma buildYamls_slots ys st st' :
  buildYamls P b ys st = inr st' →
  ∃ l, State.items st' = State.items st ++ l
       ∧ slotOf <$> l `sublist_of` slots P ys.
Proof.
  revert st. induction ys as [|y ys IH]; intros st; simpl.
  - intros [= <-]. exists []. split; [by rewrite app_nil_r|done].
  - unfold slots. rewrite fmap_cons, concat_cons. unfold slotsOf at 1.
    destruct (axesOf P y) as [|axes]; [done|].
    destruct (buildAxes P b y axes st) as [|st1] eqn:E; [done|].
    intros (l2 & -> & Hl2)%IH.
    apply buildAxes_slots in E as (l1 & -> & Hl1).
    exists (l1 ++ l2). split; [by rewrite app_assoc|].
    rewrite fmap_app. by apply sublist_app.
Qed.

Lemma stepListContainsItemsToRun_true items :
  stepListContainsItemsToRun items = true
  ↔ ∃ item, In item items
            ∧ model.Workflow.State (Item.Workflow item) = model.StatusPending.
Proof.
  induction items as [|x l IH]; simpl.
  - split; [done|intros (? & [] & _)].
  - destruct (String.eqb_spec (model.Workflow.State (Item.Workflow x))
                model.StatusPending) as [Heq|Hne].
    + split; [|done]. intros _. exists x. auto.
    + rewrite IH. split.
      * intros (i & Hi & Hs). exists i. auto.
      * intros (i & [<-|Hi] & Hs); [done|]. exists i. auto.
Qed.

(** Where the loops stopped with an error: at a file whose matrix does
    not parse, or at a turn for an axis. *)
Lemma buildAxes_error_at y axes1 axes2 st1 st err :
  buildAxes P b y axes1 st1 = inr st →
  buildAxes P b y axes2 st = inl err →
  ∃ axes1' axis axes2' st',
    axes1 ++ axes2 = axes1' ++ axis :: axes2'
    ∧ buildAxes P b y axes1' st1 = inr st'
    ∧ buildAxis P b y axis st' = inl err.
Proof.
  revert axes1 st. induction axes2 as [|axis axes2 IH]; intros axes1 st H1;
    simpl; [done|].
  destruct (buildAxis P b y axis st) as [e|st2] eqn:E.
  - intros [= <-]. by exists axes1, axis, axes2, st.
  - intros H2.
    destruct (IH (axes1 ++ [axis]) st2) as (a1 & a & a2 & s & Heq & Hs & He).
    + rewrite buildAxes_app, H1. simpl. by rewrite E.
    + done.
    + exists a1, a, a2, s. by rewrite <- Heq, <- app_assoc.
Qed.

Lemma buildYamls_error_at ys1 ys2 st err :
  Packages.SortByName P (StepBuilder.Yamls b) = ys1 ++ ys2 →
  buildYamls P b ys1 initial = inr st →
  buildYamls P b ys2 st = inl err →
  (∃ y st' e, reaches P b y st'
              ∧ Packages.matrix_ParseString P (forge_types.FileMeta.Data y)
                = inl e
              ∧ err = Upstream e)
  ∨ (∃ y axis st', visits P b y axis st'
                   ∧ buildAxis P b y axis st' = inl err).
Proof.
  revert ys1 st. induction ys2 as [|y ys2 IH]; intros ys1 st Hys H1;
    simpl; [done|].
  destruct (axesOf P y) as [e|axes] eqn:Hax.
  - intros [= <-]. left. exists y, st, e. split; [by exists ys1, ys2|].
    split; [|done]. unfold axesOf in Hax.
    destruct (Packages.matrix_ParseString P _); [congruence|done].
  - destruct (buildAxes P b y axes st) as [e|st2] eqn:E.
    + intros [= <-]. right.
      destruct (buildAxes_error_at y [] axes st st e eq_refl E)
        as (a1 & a & a2 & s & Heq & Hs & He).
      exists y, a, s. split; [|done].
      exists ys1, ys2, a1, a2, st. by rewrite <- Heq.
    + intros H2. apply (IH (ys1 ++ [y]) st2); [by rewrite <- app_assoc| |done].
      rewrite buildYamls_app, H1. simpl. by rewrite Hax, E.
Qed.

End Returned.

(** X5: the items [Build] returns are in the order of the traversal:
    their names and axes, in order, are among the sanitized names of the
    sorted files, each with the axes of its matrix in order. *)
Theorem Build_order (P : Packages) (b : StepBuilder) (items : list Item) :
  Build P b = inr items →
  slotOf <$> items
  `sublist_of` slots P (Packages.SortByName P (StepBuilder.Yamls b)).
Proof.
  unfold Build. destruct (collect P b) as [|st] eqn:Hc; [done|].
  destruct (_ && _); [done|]. intros [= <-].
  apply buildYamls_slots in Hc as (l & Hl & Hsub). simpl in Hl. subst l.
  etrans; [|exact Hsub]. apply fmap_sublist, filterItems_sublist.
Qed.

(** X6: every item [Build] returns belongs to the current pipeline, has a
    workflow without database ID yet, in the pending or the skipped state,
    and a plan of at least one stage. *)
Theorem Build_items (P : Packages) (b : StepBuilder) (items : list Item) :
  Build P b = inr items →
  ∀ item, In item items →
    model.Workflow.PipelineID (Item.Workflow item)
    = model.Pipeline.ID (StepBuilder.Curr b)
    ∧ model.Workflow.ID (Item.Workflow item) = 0%Z
    ∧ (model.Workflow.State (Item.Workflow item) = model.StatusPending
       ∨ model.Workflow.State (Item.Workflow item) = model.StatusSkipped)
    ∧ backend_types.Config.Stages (Item.Config item) ≠ [].
Proof.
  unfold Build. destruct (collect P b) as [|st] eqn:Hc; [done|].
  destruct (_ && _); [done|]. intros [= <-] item Hin%filterItems_In.
  destruct (collect_madeByBuild P b st Hc item Hin)
    as (y & axis & s & parsed & m & ir & _ & _ & _ & Hne & ->).
  repeat split; [|done]. destruct m; [by left|by right].
Qed.

(** X7: a list [Build] returns can start and is closed: every dependency
    of every item is the name of an item of the list, and the list is
    empty or holds a workflow in the pending state. *)
Theorem Build_runnable (P : Packages) (b : StepBuilder) (items : list Item) :
  Build P b = inr items →
  (∀ item dep, In item items → In dep (Item.DependsOn item) →
     ∃ other, In other items
              ∧ model.Workflow.Name (Item.Workflow other) = dep)
  ∧ (items = []
     ∨ ∃ item, In item items
               ∧ model.Workflow.State (Item.Workflow item)
                 = model.StatusPending).
Proof.
  unfold Build. destruct (collect P b) as [|st] eqn:Hc; [done|].
  set (out := filterItemsWithMissingDependencies (State.items st)).
  destruct (_ && _) eqn:E; [done|]. intros [= <-]. split.
  - intros item dep Hi Hd. apply containsItemWithName_In.
    by apply (proj1 (itemsToRemove_nil out) (filterItems_settled _) item dep).
  - apply andb_false_iff in E as [E|E].
    + left. apply Nat.ltb_ge in E. destruct out; [done|]. simpl in E. lia.
    + right. apply negb_false_iff in E.
      by apply stepListContainsItemsToRun_true.
Qed.

(** X8: when the matrix of a file that [Build] reaches does not parse,
    [Build] fails with the error of the matrix parser, unchanged. *)
Theorem matrix_error (P : Packages) (b : StepBuilder) y st err :
  reaches P b y st →
  Packages.matrix_ParseString P (forge_types.FileMeta.Data y) = inl err →
  Build P b = inl (Upstream err).
Proof.
  intros (ys1 & ys2 & Hys & Hst) Herr. apply Build_collect_error.
  unfold collect. rewrite Hys, buildYamls_app, Hst. simpl.
  unfold axesOf. by rewrite Herr.
Qed.

(** X9: when the substitution of the variables fails at a visit, or the
    compiler fails for a workflow that passed the when-filter, [Build]
    fails with that error, unchanged. *)
Theorem upstream_errors (P : Packages) (b : StepBuilder) y axis st :
  visits P b y axis st →
  (∀ err,
     Packages.EnvVarSubst P (forge_types.FileMeta.Data y)
       (substEnviron P b (newWorkflow b y axis (State.pidSequence st)) axis)
     = inl err →
     Build P b = inl (Upstream err))
  ∧ (∀ parsed m err,
       parsesTo P b y axis st parsed →
       yaml_types.Workflow.When parsed (metadataAt b y axis st) true
       = (m, None) →
       planAt P b y axis st parsed = inl err →
       Build P b = inl (Upstream err)).
Proof.
  intros Hv. split.
  - intros err Hs. apply Build_collect_error.
    eapply visits_error; [exact Hv|]. by apply buildAxis_subst_error.
  - intros parsed m err Hp Hw Hc. apply Build_collect_error.
    eapply visits_error; [exact Hv|].
    rewrite (buildAxis_compiled P b y axis st parsed m Hp Hw). by rewrite Hc.
Qed.

Ltac turn_cases H :=
  destruct H as
    [(? & ? & ?)
    |[(? & ? & ? & ? & ?)
    |[(? & ? & ? & ? & ? & ? & ?)
    |[(? & ? & ? & (? & ? & ? & ?) & ? & ?)
    |(? & ? & ? & (? & ? & ? & ?) & ? & ? & ?)]]]].

Lemma buildAxis_inl (P : Packages) (b : StepBuilder) y axis st err :
  buildAxis P b y axis st = inl err ↔ turnFails P b y axis st err.
Proof.
  unfold turnFails.
  destruct (Packages.EnvVarSubst P (forge_types.FileMeta.Data y)
    (substEnviron P b (newWorkflow b y axis (State.pidSequence st)) axis))
    as [e|s] eqn:Hs.
  { rewrite (buildAxis_subst_error P b _ _ _ _ Hs). split.
    - intros [= <-]. left. by exists e.
    - intros H. turn_cases H; congruence. }
  destruct (Packages.yaml_ParseString P s) as [e|parsed] eqn:Hp.
  { rewrite (buildAxis_parse_error P b _ _ _ _ _ Hs Hp). split.
    - intros [= <-]. right. left. by exists s, e.
    - intros H. turn_cases H; congruence. }
  destruct (Packages.Lint P (model.Repo.IsTrusted (StepBuilder.Repo b)) parsed)
    as [e|] eqn:Hl.
  { rewrite (buildAxis_lint_error P b _ _ _ _ _ _ Hs Hp Hl). split.
    - intros [= <-]. right. right. left. by exists s, parsed, e.
    - intros H. turn_cases H; congruence. }
  assert (Hparsed : parsesTo P b y axis st parsed) by (by exists s).
  destruct (yaml_types.Workflow.When parsed (metadataAt b y axis st) true)
    as [m [e|]] eqn:Hw.
  { rewrite (buildAxis_when_error P b _ _ _ _ _ _ Hparsed Hw). split.
    - intros [= <-]. do 3 right. left. by exists parsed, m, e.
    - intros H. turn_cases H; congruence. }
  rewrite (buildAxis_compiled P b _ _ _ _ _ Hparsed Hw).
  destruct (planAt P b y axis st parsed) as [e|ir] eqn:Hc.
  - split.
    + intros [= <-]. do 4 right. by exists parsed, m, e.
    + intros H. turn_cases H; congruence.
  - split.
    + by destruct (length _ =? 0)%nat.
    + intros H. turn_cases H; congruence.
Qed.

(** X10: an error [Build] returns is the error of the startpoint check,
    the error of the matrix parser at a file [Build] reaches, or the
    error of the turn for an axis [Build] visits: that of the
    substitution, the when-filter or the compiler, unchanged, or that of
    the parser or the linter, wrapped; there is no other. *)
Theorem error_provenance (P : Packages) (b : StepBuilder) (err : error) :
  Build P b = inl err →
  err = Errorf "pipeline has no startpoint"
  ∨ (∃ y st e, reaches P b y st
               ∧ Packages.matrix_ParseString P (forge_types.FileMeta.Data y)
                 = inl e
               ∧ err = Upstream e)
  ∨ (∃ y axis st, visits P b y axis st ∧ turnFails P b y axis st err).
Proof.
  unfold Build. destruct (collect P b) as [e|st] eqn:Hc.
  - intros [= <-]. right.
    destruct (buildYamls_error_at P b []
                (Packages.SortByName P (StepBuilder.Yamls b)) initial e
                eq_refl eq_refl Hc) as [H|(y & axis & s & Hv & Hturn)].
    + by left.
    + right. exists y, axis, s. split; [done|]. by apply buildAxis_inl.
  - destruct (_ && _); [|done]. intros [= <-]. by left.
Qed.

(** Three files, sorted to [a], [c], [m]; [a] is removed. *)
Lemma Build_order_witness :
  let b := Scenario.builder "push"
             [Scenario.file "m.yml" Scenario.two_by_one;
              Scenario.file "c.yml" Scenario.plain;
              Scenario.file "a.yml" Scenario.needs_b] ∅ in
  ∃ items,
    Build Scenario.packages b = inr items
    ∧ (slotOf <$> items).*1 = ["c"; "m"; "m"]
    ∧ (slots Scenario.packages
         (Scenario.sortByName (StepBuilder.Yamls b))).*1
      = ["a"; "c"; "m"; "m"]
    ∧ slotOf <$> items
      `sublist_of`
      slots Scenario.packages (Scenario.sortByName (StepBuilder.Yamls b)).
Proof.
  intros b. eexists. split; [vm_compute; reflexivity|].
  split; [vm_compute; reflexivity|]. split; [vm_compute; reflexivity|].
  apply (Build_order Scenario.packages b). vm_compute. reflexivity.
Defined.

Lemma Build_items_witness :
  let b := Scenario.builder "pull_request"
             [Scenario.file "a.yml" Scenario.on_push;
              Scenario.file "b.yml" Scenario.plain] ∅ in
  ∃ items item,
    Build Scenario.packages b = inr items
    ∧ In item items
    ∧ model.Workflow.PipelineID (Item.Workflow item) = 7%Z
    ∧ model.Workflow.State (Item.Workflow item) = model.StatusSkipped
    ∧ backend_types.Config.Stages (Item.Config item) ≠ [].
Proof.
  intros b. eexists _, _. split; [vm_compute; reflexivity|].
  split; [left; reflexivity|].
  match goal with
  | |- model.Workflow.PipelineID (Item.Workflow ?item) = _ ∧ _ =>
      destruct (Build_items Scenario.packages b _ eq_refl item
                  (or_introl eq_refl)) as (Hid & _ & _ & Hplan)
  end.
  split; [exact Hid|]. split; [reflexivity|exact Hplan].
Defined.

(** [c] needs [a], which is there. *)
Lemma Build_runnable_witness :
  let b := Scenario.builder "push"
             [Scenario.file "c.yml" Scenario.needs_a;
              Scenario.file "a.yml" Scenario.plain] ∅ in
  ∃ items item other,
    Build Scenario.packages b = inr items
    ∧ In item items
    ∧ Item.DependsOn item = ["a"]
    ∧ In other items
    ∧ model.Workflow.Name (Item.Workflow other) = "a".
Proof.
  intros b.
  destruct (Build Scenario.packages b) as [|items] eqn:HB;
    [vm_compute in HB; discriminate HB|].
  destruct (Build_runnable Scenario.packages b items HB) as [Hdeps _].
  vm_compute in HB. injection HB as <-.
  match goal with
  | Hdeps : ∀ item dep, In item [?a; ?c] → _ |- _ =>
      destruct (Hdeps c "a" (or_intror (or_introl eq_refl))
                  (or_introl eq_refl)) as (other & Hin & Hname);
      eexists _, c, other
  end.
  split; [reflexivity|]. split; [right; left; reflexivity|].
  split; [reflexivity|]. split; [exact Hin|exact Hname].
Defined.

(** The second file has a matrix that does not parse. *)
Lemma matrix_error_witness :
  let b := Scenario.builder "push"
             [Scenario.file "a.yml" Scenario.plain;
              Scenario.file "m.yml" Strict.broken_matrix] ∅ in
  (∃ st, reaches Strict.packages b
           (Scenario.file "m.yml" Strict.broken_matrix) st)
  ∧ Build Strict.packages b
    = inl (Upstream "yaml: did not find expected node content").
Proof.
  intros b.
  assert (Hr : ∃ st, reaches Strict.packages b
                       (Scenario.file "m.yml" Strict.broken_matrix) st).
  { eexists. exists [Scenario.file "a.yml" Scenario.plain], [].
    split; [reflexivity|]. vm_compute. reflexivity. }
  split; [exact Hr|]. destruct Hr as [st Hr].
  apply (matrix_error Strict.packages b _ st _ Hr). reflexivity.
Defined.

(** A variable that is not bound, and a plugin step asking, on a pull
    request, for a secret that is listed for pushes only. *)
Lemma upstream_errors_witness :
  Build Strict.packages
    (Scenario.builder "push" [Scenario.file "a.yml" Strict.unbound] ∅)
  = inl (Upstream "variable not set: IMAGE")
  ∧ Build Strict.packages
      (Scenario.builder "pull_request"
         [Scenario.file "a.yml" Scenario.plugin] ∅)
    = inl (Upstream "secret not found").
Proof.
  split.
  - refine (proj1 (upstream_errors Strict.packages _
                     (Scenario.file "a.yml" Strict.unbound) ∅ initial _) _ _).
    + by eapply visits_first.
    + vm_compute. reflexivity.
  - refine (proj2 (upstream_errors Strict.packages _
                     (Scenario.file "a.yml" Scenario.plugin) ∅ initial _)
              (Scenario.workflow Scenario.always [] [Scenario.publish])
              true _ _ _ _).
    + by eapply visits_first.
    + by exists Scenario.plugin.
    + reflexivity.
    + vm_compute. reflexivity.
Defined.

Lemma error_provenance_witness :
  let b := Scenario.builder "push"
             [Scenario.file "a.yml" Scenario.no_image] ∅ in
  Build Scenario.packages b
  = inl (PipelineParseError "Invalid or missing image")
  ∧ (PipelineParseError "Invalid or missing image"
     = Errorf "pipeline has no startpoint"
     ∨ (∃ y st e,
          reaches Scenario.packages b y st
          ∧ Packages.matrix_ParseString Scenario.packages
              (forge_types.FileMeta.Data y) = inl e
          ∧ PipelineParseError "Invalid or missing image" = Upstream e)
     ∨ (∃ y axis st,
          visits Scenario.packages b y axis st
          ∧ turnFails Scenario.packages b y axis st
              (PipelineParseError "Invalid or missing image"))).
Proof.
  intros b.
  assert (HB : Build Scenario.packages b
               = inl (PipelineParseError "Invalid or missing image")).
  { vm_compute. reflexivity. }
  split; [exact HB|].
  exact (error_provenance Scenario.packages b _ HB).
Defined.

(** ** The environment of a workflow *)

(** X11: in the environment the text of a workflow is substituted with,
    a name has the value of the axis; failing that, the value of the
    metadata; failing that, the value of the global environment; and is
    unbound when none of the three binds it. *)
Theorem environment_precedence (P : Packages) (b : StepBuilder)
    (workflow : model.Workflow) (axis : matrix.Axis) (K : string) :
  substEnviron P b workflow axis !! K
  = match axis !! K with
    | Some v => Some v
    | None =>
        match Packages.Environ P
                (frontend.MetadataFromStruct (StepBuilder.Forge b)
                   (StepBuilder.Repo b) (StepBuilder.Curr b)
                   (StepBuilder.Last b) workflow (StepBuilder.Link b)) !! K with
        | Some v => Some v
        | None => StepBuilder.Envs b !! K
        end
    end.
Proof.
  unfold substEnviron.
  rewrite addGlobals_union, environmentVariables_union, !lookup_union.
  destruct (axis !! K); [by destruct (Packages.Environ P _ !! K),
                            (StepBuilder.Envs b !! K)|].
  destruct (Packages.Environ P _ !! K); [by destruct (StepBuilder.Envs b !! K)|].
  by destruct (StepBuilder.Envs b !! K).
Qed.

Lemma environment_precedence_witness :
  let b := Scenario.builder "push" [Scenario.file "m.yml" Scenario.two_by_one]
             {[ "CI_WORKFLOW_NAME" := "global"; "os" := "bsd";
                "DEPLOY" := "yes" ]} in
  let axis : matrix.Axis := {[ "os" := "linux" ]} in
  let workflow :=
    newWorkflow b (Scenario.file "m.yml" Scenario.two_by_one) axis 1 in
  substEnviron Scenario.packages b workflow axis !! "os" = Some "linux"
  ∧ substEnviron Scenario.packages b workflow axis !! "CI_WORKFLOW_NAME"
    = Some "m"
  ∧ substEnviron Scenario.packages b workflow axis !! "DEPLOY" = Some "yes"
  ∧ substEnviron Scenario.packages b workflow axis !! "HOME" = None.
Proof.
  intros b axis workflow.
  rewrite !(environment_precedence Scenario.packages b workflow axis).
  repeat split; vm_compute; reflexivity.
Defined.

(** ** The registries handed to the compiler *)

Lemma foldl_registries (l : list model.Registry)
    (acc : list compiler.Registry) :
  foldl (λ registries reg, registries ++ [registryOf reg]) acc l
  = acc ++ (registryOf <$> l).
Proof.
  revert acc. induction l as [|reg l IH]; intros acc; simpl.
  - by rewrite app_nil_r.
  - by rewrite IH, <- app_assoc.
Qed.

(** X12: all the registries of the builder are handed on, in their
    order, the address of each as its host name; unlike the secrets, none
    is left out for the event. *)
Theorem registries_all (b : StepBuilder) :
  compilerRegistries b = registryOf <$> StepBuilder.Regs b.
Proof. exact (foldl_registries (StepBuilder.Regs b) []). Qed.

(** ** More on the sanitized names *)

Section SanitizeMore.

Import Path.

Local Abbreviation slash := ("/"%char).

Lemma list_ascii_of_string_app (s t : string) :
  list_ascii_of_string (s +:+ t)
  = list_ascii_of_string s ++ list_ascii_of_string t.
Proof. induction s as [|c s IH]; simpl; [done|]. by rewrite IH. Qed.

Lemma takeWhile_app_stop p (l1 l2 : list ascii) c :
  (∀ d, d ∈ l1 → p d = true) → p c = false →
  takeWhile p (l1 ++ c :: l2) = l1.
Proof.
  intros Hall Hc. induction l1 as [|d l1 IH]; simpl.
  - by rewrite Hc.
  - rewrite (Hall d) by left. f_equal. apply IH.
    intros e He. apply Hall. by right.
Qed.

Lemma Base_last dir name :
  name ≠ [] → slash ∉ name → Base (dir ++ slash :: name) = name.
Proof.
  intros Hne Hno.
  assert (Hkeep : dropWhile IsPathSeparator
                    (reverse name ++ [slash] ++ reverse dir)
                  = reverse name ++ [slash] ++ reverse dir).
  { destruct (reverse name) as [|c r] eqn:Hr.
    - apply (f_equal reverse) in Hr. rewrite reverse_involutive in Hr.
      by subst.
    - assert (Hc : c ∈ name).
      { apply elem_of_reverse. rewrite Hr. by left. }
      pose proof (not_sep_of_no_slash name c Hno Hc) as Hsep.
      apply negb_true_iff in Hsep. simpl. by rewrite Hsep. }
  assert (Hstrip : stripTrailingSlashes (dir ++ slash :: name)
                   = dir ++ slash :: name).
  { unfold stripTrailingSlashes.
    rewrite reverse_app, reverse_cons, <- app_assoc, Hkeep.
    rewrite !reverse_app, !reverse_involutive. simpl.
    by rewrite <- app_assoc. }
  assert (Hlast : lastElement (dir ++ slash :: name) = name).
  { unfold lastElement. rewrite reverse_app, reverse_cons, <- app_assoc.
    cbn [app]. rewrite takeWhile_app_stop; [apply reverse_involutive| |done].
    intros d Hd. rewrite elem_of_reverse in Hd.
    exact (not_sep_of_no_slash name d Hno Hd). }
  unfold Base. destruct (dir ++ slash :: name) eqn:E.
  - by destruct dir.
  - rewrite Hstrip, Hlast. by destruct name.
Qed.

Lemma HasSuffix_app n suf : HasSuffix (n ++ suf) suf = true.
Proof.
  unfold HasSuffix. rewrite length_app.
  replace (length n + length suf - length suf) with (length n) by lia.
  rewrite drop_app_length, bool_decide_eq_true_2 by done.
  rewrite andb_true_r. apply Nat.leb_le. lia.
Qed.

Lemma TrimSuffix_app n suf : TrimSuffix (n ++ suf) suf = n.
Proof.
  unfold TrimSuffix. rewrite HasSuffix_app, length_app.
  replace (length n + length suf - length suf) with (length n) by lia.
  apply take_app_length.
Qed.

Lemma HasSuffix_yaml_yml n : HasSuffix (n ++ dot_yaml) dot_yml = false.
Proof.
  unfold HasSuffix. rewrite length_app.
  replace (length n + length dot_yaml - length dot_yml) with (length n + 1)
    by (vm_compute length; lia).
  rewrite drop_app_add. apply andb_false_iff. right.
  by apply bool_decide_eq_false_2.
Qed.

Lemma sanitizeBytes_plain n :
  n ≠ [] → slash ∉ n →
  sanitizeBytes n
  = TrimPrefix (TrimSuffix (TrimSuffix n dot_yml) dot_yaml) dot.
Proof. intros Hne Hno. unfold sanitizeBytes. by rewrite Base_no_slash. Qed.

End SanitizeMore.

(** X13: a sanitized name is a single element of a path: it holds no
    slash, unless it is the root, a slash alone. *)
Theorem SanitizePath_element (x : string) :
  SanitizePath x = "/" ∨ "/"%char ∉ list_ascii_of_string (SanitizePath x).
Proof.
  unfold SanitizePath. rewrite list_ascii_of_string_of_list_ascii.
  destruct (sanitizeBytes_shape (list_ascii_of_string x)) as [->|H];
    [by left|by right].
Qed.

(** X14: the directories of a path do not count: the sanitized name of a
    path that ends in an element after a slash is the sanitized name of
    that element. *)
Theorem SanitizePath_directory (dir name : string) :
  name ≠ "" → "/"%char ∉ list_ascii_of_string name →
  SanitizePath (dir +:+ "/" +:+ name) = SanitizePath name.
Proof.
  intros Hne Hno. unfold SanitizePath. f_equal.
  rewrite !list_ascii_of_string_app. cbn [list_ascii_of_string app].
  assert (Hne' : list_ascii_of_string name ≠ []) by (by destruct name).
  unfold sanitizeBytes. by rewrite Base_last, Base_no_slash.
Qed.

(** X15: the extension is stripped: for a name without slash that does
    not begin with a dot nor end in [.yaml], the files [name.yml] and
    [name.yaml] are both sanitized to the name, so that the two give
    workflows of one name. *)
Theorem SanitizePath_extension (name : string) :
  name ≠ "" → "/"%char ∉ list_ascii_of_string name →
  Path.HasPrefix (list_ascii_of_string name) dot = false →
  Path.HasSuffix (list_ascii_of_string name) dot_yaml = false →
  SanitizePath (name +:+ ".yml") = name
  ∧ SanitizePath (name +:+ ".yaml") = name.
Proof.
  intros Hne Hno Hdot Hyaml.
  assert (Hne' : list_ascii_of_string name ≠ []) by (by destruct name).
  assert (Hext : ∀ ext : list ascii,
            "/"%char ∉ ext → list_ascii_of_string name ++ ext ≠ []
            ∧ "/"%char ∉ list_ascii_of_string name ++ ext).
  { intros ext Hext. split; [by destruct (list_ascii_of_string name)|].
    rewrite elem_of_app. tauto. }
  unfold SanitizePath. rewrite !list_ascii_of_string_app.
  change (list_ascii_of_string ".yml") with dot_yml.
  change (list_ascii_of_string ".yaml") with dot_yaml.
  split.
  - destruct (Hext dot_yml) as [H1 H2].
    { vm_compute. intros H. by repeat (apply elem_of_cons in H as [H|H];
        [discriminate H|]); apply elem_of_nil in H. }
    rewrite sanitizeBytes_plain, TrimSuffix_app by done.
    unfold Path.TrimSuffix, Path.TrimPrefix. rewrite Hyaml, Hdot.
    apply string_of_list_ascii_of_string.
  - destruct (Hext dot_yaml) as [H1 H2].
    { vm_compute. intros H. by repeat (apply elem_of_cons in H as [H|H];
        [discriminate H|]); apply elem_of_nil in H. }
    rewrite sanitizeBytes_plain by done.
    unfold Path.TrimSuffix at 2. rewrite HasSuffix_yaml_yml, TrimSuffix_app.
    unfold Path.TrimPrefix. rewrite Hdot.
    apply string_of_list_ascii_of_string.
Qed.

Lemma SanitizePath_directory_witness :
  "build.yml" ≠ ""
  ∧ ("/"%char ∉ list_ascii_of_string "build.yml")
  ∧ SanitizePath (".woodpecker" +:+ "/" +:+ "build.yml")
    = SanitizePath "build.yml".
Proof.
  assert (H1 : "build.yml" ≠ "") by discriminate.
  assert (H2 : "/"%char ∉ list_ascii_of_string "build.yml").
  { intros H. vm_compute in H.
    by repeat (apply elem_of_cons in H as [H|H]; [discriminate H|]);
      apply elem_of_nil in H. }
  split; [exact H1|]. split; [exact H2|].
  exact (SanitizePath_directory ".woodpecker" "build.yml" H1 H2).
Defined.

Lemma SanitizePath_extension_witness :
  SanitizePath ("release" +:+ ".yml") = "release"
  ∧ SanitizePath ("release" +:+ ".yaml") = "release".
Proof.
  apply (SanitizePath_extension "release").
  - discriminate.
  - intros H. vm_compute in H.
    by repeat (apply elem_of_cons in H as [H|H]; [discriminate H|]);
      apply elem_of_nil in H.
  - vm_compute. reflexivity.
  - vm_compute. reflexivity.
Defined.

(** ** More on the dependency reconciler *)

Lemma filterItems_same_name items x y :
  In x items → In y items →
  model.Workflow.Name (Item.Workflow x) = model.Workflow.Name (Item.Workflow y) →
  In x (filterItemsWithMissingDependencies items) →
  In y (filterItemsWithMissingDependencies items).
Proof.
  revert x y.
  apply (filterItems_ind (λ items out,
    ∀ x y, In x items → In y items →
      model.Workflow.Name (Item.Workflow x)
      = model.Workflow.Name (Item.Workflow y) →
      In x out → In y out)).
  - auto.
  - intros l r rs Hrm IH x y Hx Hy Hname Hout.
    pose proof (filterItems_In _ _ Hout) as Hxf.
    apply (IH x y Hxf); [|done..].
    apply filtered_In in Hxf as [_ Hkeep].
    apply filtered_In. split; [done|]. by rewrite <- Hname.
Qed.

(** X16: the reconciler removes by name: of two items of one name, for
    instance the workflows of the axes of one file, either both are kept
    or both are removed, whichever of them has the unresolved
    dependency. *)
Theorem removal_by_name (items : list Item) (x y : Item) :
  In x items → In y items →
  model.Workflow.Name (Item.Workflow x) = model.Workflow.Name (Item.Workflow y) →
  (In x (filterItemsWithMissingDependencies items)
   ↔ In y (filterItemsWithMissingDependencies items)).
Proof.
  intros Hx Hy Hname. split.
  - by apply filterItems_same_name.
  - by apply filterItems_same_name.
Qed.

(** X17: the reconciler keeps exactly the items whose name lies in some
    set of names that is closed under the dependencies of the items
    bearing them, each dependency being the name of an item of the list:
    the survivors are the largest part of the list that is closed by
    name. *)
Theorem survivors_characterized (items : list Item) (item : Item) :
  In item (filterItemsWithMissingDependencies items)
  ↔ In item items
    ∧ ∃ N : string → Prop,
        closedNames N items ∧ N (model.Workflow.Name (Item.Workflow item)).
Proof.
  split.
  - intros Hout. split; [by apply filterItems_In|].
    set (out := filterItemsWithMissingDependencies items) in *.
    exists (λ name, containsItemWithName name out = true). split.
    + intros i Hi HN dep Hdep.
      apply containsItemWithName_In in HN as (o & Ho & Hname).
      assert (Hiout : In i out).
      { apply (filterItems_same_name items o i); try done.
        by apply filterItems_In. }
      pose proof (proj1 (itemsToRemove_nil out) (filterItems_settled items)
                    i dep Hiout Hdep) as Hres.
      split; [done|].
      apply containsItemWithName_In in Hres as (d & Hd & Hdn).
      apply containsItemWithName_In. exists d. split; [|done].
      by apply filterItems_In.
    + apply containsItemWithName_In. by exists item.
  - intros (Hin & N & Hcl & HN). by apply (closedNames_survive N).
Qed.

(** X18: the reconciler returns a list as it is exactly when every
    dependency of every item is the name of an item of the list; in
    particular a list without dependencies is never changed. *)
Theorem unchanged_iff_closed (items : list Item) :
  filterItemsWithMissingDependencies items = items
  ↔ ∀ item dep, In item items → In dep (Item.DependsOn item) →
                ∃ other, In other items
                         ∧ model.Workflow.Name (Item.Workflow other) = dep.
Proof.
  split.
  - intros Heq item dep Hi Hd. apply containsItemWithName_In.
    assert (Hnil : itemsToRemove items = []).
    { rewrite <- Heq. apply filterItems_settled. }
    exact (proj1 (itemsToRemove_nil items) Hnil item dep Hi Hd).
  - intros H. apply filterItems_done, itemsToRemove_nil.
    intros item dep Hi Hd. apply containsItemWithName_In.
    exact (H item dep Hi Hd).
Qed.

(** Two axes of one file, of which one names a workflow that does not
    exist: the other goes with it. *)
Lemma removal_by_name_witness :
  let x := planned "m" 1 model.StatusPending ["gone"] [["build"]] in
  let y := planned "m" 2 model.StatusPending [] [["build"]] in
  let z := planned "z" 3 model.StatusPending [] [["build"]] in
  filterItemsWithMissingDependencies [x; y; z] = [z]
  ∧ (In x (filterItemsWithMissingDependencies [x; y; z])
     ↔ In y (filterItemsWithMissingDependencies [x; y; z])).
Proof.
  intros x y z. split; [vm_compute; reflexivity|].
  apply (removal_by_name [x; y; z] x y).
  - left. reflexivity.
  - right. left. reflexivity.
  - reflexivity.
Defined.

(** Two workflows that need each other are kept. *)
Lemma survivors_characterized_witness :
  let a := planned "a" 1 model.StatusPending ["b"] [["build"]] in
  let b := planned "b" 2 model.StatusPending ["a"] [["build"]] in
  closedNames (λ name, name = "a" ∨ name = "b") [a; b]
  ∧ In a (filterItemsWithMissingDependencies [a; b]).
Proof.
  intros a b.
  assert (Hcl : closedNames (λ name, name = "a" ∨ name = "b") [a; b]).
  { intros item [<-|[<-|[]]] _ dep [<-|[]].
    - split; [by right|reflexivity].
    - split; [by left|reflexivity]. }
  split; [exact Hcl|].
  apply (proj2 (survivors_characterized [a; b] a)).
  split; [left; reflexivity|].
  exists (λ name, name = "a" ∨ name = "b"). split; [exact Hcl|by left].
Defined.

Lemma unchanged_iff_closed_witness :
  let a := planned "a" 1 model.StatusPending [] [["build"]] in
  let c := planned "c" 2 model.StatusSkipped ["a"] [["test"]] in
  filterItemsWithMissingDependencies [a; c] = [a; c].
Proof.
  intros a c. apply (proj2 (unchanged_iff_closed [a; c])).
  intros item dep [<-|[<-|[]]] Hdep.
  - destruct Hdep.
  - destruct Hdep as [<-|[]]. exists a. split; [left|]; reflexivity.
Defined.
